(** * youtube-transcript: the URL resolver and the transcript selector

    A shallow embedding of [src/main.py]: the regular-expression based
    [extract_video_id] and the [/transcript] endpoint [get_transcript],
    with the transcript-retrieval library as an explicit collaborator. *)

From Stdlib Require Import Strings.String Strings.Ascii List Bool Arith Lia.
Import ListNotations.
Open Scope string_scope.

(** ** Python [str] operations used by the program *)

Module PyStr.

(** [s[n:]] *)
Fixpoint drop (n : nat) (s : string) : string :=
  match n, s with
  | S n', String _ s' => drop n' s'
  | _, _ => s
  end.

(** [s[:n]] *)
Fixpoint take (n : nat) (s : string) : string :=
  match n, s with
  | S n', String c s' => String c (take n' s')
  | _, _ => ""
  end.

(** [s.startswith(p)] *)
Fixpoint startswith (s p : string) : bool :=
  match p, s with
  | "", _ => true
  | String a p', String b s' => Ascii.eqb a b && startswith s' p'
  | String _ _, "" => false
  end.

(** [s.endswith(suffix)]: the last [len(suffix)] characters are [suffix]. *)
Definition endswith (s suffix : string) : bool :=
  (String.length suffix <=? String.length s)%nat
  && (drop (String.length s - String.length suffix) s =? suffix).

(** [s.replace(old, new)] for a non-empty [old]: occurrences are found
    left to right and do not overlap.  [skip] counts the characters of
    an occurrence still to be passed over. *)
Fixpoint replace_from (old new : string) (skip : nat) (s : string) : string :=
  match s with
  | "" => ""
  | String c s' =>
      match skip with
      | S k => replace_from old new k s'
      | O =>
          if startswith s old
          then new ++ replace_from old new (String.length old - 1) s'
          else String c (replace_from old new 0 s')
      end
  end.

Definition replace (s old new : string) : string := replace_from old new 0 s.

(** [sep.join(parts)] *)
Fixpoint join (sep : string) (parts : list string) : string :=
  match parts with
  | [] => ""
  | [x] => x
  | x :: rest => x ++ sep ++ join sep rest
  end.

(** Truthiness of a [str]: the empty string is falsy. *)
Definition truthy (s : string) : bool := negb (s =? "").

End PyStr.

(** ** The fragment of Python's [re] that the three patterns use

    Characters are [ascii]: the patterns name ASCII characters only. *)

Module Re.

(** One-character matchers: a literal, [.], and a negated class [[^...]]. *)
Inductive cset : Type :=
| Lit (c : ascii)
| Any
| Except (cs : list ascii).

Definition newline : ascii := "010"%char.

Definition accepts (k : cset) (c : ascii) : bool :=
  match k with
  | Lit a => Ascii.eqb a c
  | Any => negb (Ascii.eqb c newline)
  | Except cs => negb (existsb (Ascii.eqb c) cs)
  end.

(** [Str t] is the literal text [t]; [Group] is the capturing group
    (the patterns have exactly one, number 1); a non-capturing group
    [(?:...)] is plain nesting. *)
Inductive regex : Type :=
| Str (t : string)
| One (k : cset)
| Cat (r1 r2 : regex)
| Alt (r1 r2 : regex)
| Star (k : cset)
| Group (r : regex).

(** A match object, reduced to what the program reads: [group(1)], which
    is [None] when the group took no part in the match. *)
Record match_object : Type := MatchObject { group1 : option string }.

(** Strip the literal [t] from the front of [s]. *)
Fixpoint lit (t s : string) : option string :=
  match t, s with
  | "", _ => Some s
  | String a t', String b s' => if Ascii.eqb a b then lit t' s' else None
  | String _ _, "" => None
  end.

(** Greedy repetition of a one-character matcher with backtracking: the
    longest run is tried first, then shorter ones. *)
Fixpoint star {R : Type} (p : ascii -> bool) (s : string)
         (k : string -> option R) : option R :=
  match s with
  | String c s' =>
      if p c
      then match star p s' k with
           | Some m => Some m
           | None => k s
           end
      else k s
  | "" => k ""
  end.

(** The backtracking matcher, anchored at the front of [s].  [g] is the
    text captured so far and [k] the continuation run on the rest. *)
Fixpoint run (r : regex) (s : string) (g : option string)
         (k : string -> option string -> option match_object)
  : option match_object :=
  match r with
  | Str t =>
      match lit t s with
      | Some s' => k s' g
      | None => None
      end
  | One c =>
      match s with
      | String a s' => if accepts c a then k s' g else None
      | "" => None
      end
  | Cat r1 r2 => run r1 s g (fun s' g' => run r2 s' g' k)
  | Alt r1 r2 =>
      match run r1 s g k with
      | Some m => Some m
      | None => run r2 s g k
      end
  | Star c => star (accepts c) s (fun s' => k s' g)
  | Group r1 =>
      run r1 s g
          (fun s' _ => k s' (Some (PyStr.take (String.length s - String.length s') s)))
  end.

Definition accept (_ : string) (g : option string) : option match_object :=
  Some (MatchObject g).

(** [re.match(r, s)] *)
Definition match_at (r : regex) (s : string) : option match_object :=
  run r s None accept.

(** [re.search(r, s)]: the leftmost position at which [r] matches. *)
Fixpoint search (r : regex) (s : string) : option match_object :=
  match match_at r s with
  | Some m => Some m
  | None =>
      match s with
      | "" => None
      | String _ s' => search r s'
      end
  end.

(** [r1|r2|...|rn] *)
Fixpoint alts (rs : list regex) : regex :=
  match rs with
  | [] => Str ""
  | [r] => r
  | r :: rs' => Alt r (alts rs')
  end.

End Re.

(** ** [extract_video_id] *)

(** The class [[^#\&\?]]. *)
Definition separators : list ascii := ["#"; "&"; "?"]%char.

(** The common ending of the three patterns: the capturing group around
    [[^#\&\?]*], then [.*]. *)
Definition capture_tail : Re.regex :=
  Re.Cat (Re.Group (Re.Star (Re.Except separators))) (Re.Star Re.Any).

(** [youtu.be\/], [youtube.com\/shorts\/], [youtube.com\/live\/]: the dot
    is not escaped in the source and matches any character but a newline. *)
Definition youtu_be : Re.regex :=
  Re.Cat (Re.Str "youtu") (Re.Cat (Re.One Re.Any) (Re.Str "be/")).

Definition youtube_com (path : string) : Re.regex :=
  Re.Cat (Re.Str "youtube") (Re.Cat (Re.One Re.Any) (Re.Str ("com" ++ path))).

Definition leads : list Re.regex :=
  [ Re.Str "v="; Re.Str "/videos/"; Re.Str "embed/"; youtu_be;
    Re.Str "/v/"; Re.Str "/e/"; Re.Str "watch?v="; Re.Str "&v=" ].

Definition patterns : list Re.regex :=
  [ Re.Cat (Re.alts leads) capture_tail;
    Re.Cat (youtube_com "/shorts/") capture_tail;
    Re.Cat (youtube_com "/live/") capture_tail ].

(** The [for pattern in patterns] loop. *)
Fixpoint first_match (ps : list Re.regex) (url : string) : option string :=
  match ps with
  | [] => None
  | pattern :: ps' =>
      match Re.search pattern url with
      | Some m => Re.group1 m
      | None => first_match ps' url
      end
  end.

Definition extract_video_id (url : string) : option string :=
  first_match patterns url.

(** ** The transcript-retrieval library, as the program sees it *)

(** Modelled from the spec: the retrieval library is not part of
    [src/main.py].  Its failures are the two signals the program names and
    any other [Exception]; each carries the text that [str(e)] returns. *)
Inductive exn : Type :=
| TranscriptsDisabled (msg : string)
| NoTranscriptFound (msg : string)
| OtherException (msg : string).

Definition str (e : exn) : string :=
  match e with
  | TranscriptsDisabled msg => msg
  | NoTranscriptFound msg => msg
  | OtherException msg => msg
  end.

(** The result of a call that may raise. *)
Inductive outcome (A : Type) : Type :=
| Return (a : A)
| Raise (e : exn).
Arguments Return {A} a.
Arguments Raise {A} e.

Module Transcript.

(** Modelled from the spec: a fetched segment is
    [{text, start, duration}]; the two numbers are never read. *)
Record segment (number : Type) : Type :=
  Segment { text : string; start : number; duration : number }.
Arguments Segment {number}.
Arguments text {number}.
Arguments start {number}.
Arguments duration {number}.

(** Modelled from the spec: a transcript descriptor.  [fetch] holds what
    calling [fetch()] on it does. *)
Record t (number : Type) : Type :=
  Make { language_code : string;
         is_generated : bool;
         fetch : outcome (list (segment number)) }.
Arguments Make {number}.
Arguments language_code {number}.
Arguments is_generated {number}.
Arguments fetch {number}.

End Transcript.

Record WebshareProxyConfig : Type :=
  { proxy_username : string; proxy_password : string }.

(** A client of the library: [list_transcripts(video_id)]. *)
Record client (number : Type) : Type :=
  { list_transcripts : string -> outcome (list (Transcript.t number)) }.
Arguments list_transcripts {number}.

(** What a request depends on: the process environment and the library's
    constructor [YouTubeTranscriptApi(proxy_config=...)]. *)
Record world (number : Type) : Type :=
  { getenv : string -> option string;
    YouTubeTranscriptApi : option WebshareProxyConfig -> client number }.
Arguments getenv {number}.
Arguments YouTubeTranscriptApi {number}.

(** The effects of a request, in order. *)
Inductive event (number : Type) : Type :=
| Print (line : string)
| ListTranscripts (proxy_config : option WebshareProxyConfig) (video_id : string)
| Fetch (transcript : Transcript.t number).
Arguments Print {number}.
Arguments ListTranscripts {number}.
Arguments Fetch {number}.

(** ** The response record *)

Record response : Type :=
  { success : bool;
    fail_reason : option string;
    language : option string;
    transcript : option string }.

Definition failed (reason : string) : response :=
  {| success := false; fail_reason := Some reason;
     language := None; transcript := None |}.

Definition succeeded (final_language_code transcript_text : string) : response :=
  {| success := true; fail_reason := None;
     language := Some final_language_code;
     transcript := Some transcript_text |}.

(** ** [get_transcript] *)

(** The three local variables of the selection. *)
Record locals (number : Type) : Type :=
  { found_transcript : option (list (Transcript.segment number));
    language_code : option string;
    is_generated : bool }.
Arguments Build_locals {number}.
Arguments found_transcript {number}.
Arguments language_code {number}.
Arguments is_generated {number}.

(** Truthiness of [found_transcript]: [None] and the empty list are falsy. *)
Definition truthy {A : Type} (v : option (list A)) : bool :=
  match v with
  | Some (_ :: _) => true
  | _ => false
  end.

(** [try: ... except Exception: pass]: a raise inside the block leaves
    the locals as they were before it. *)
Definition suppress {A E : Type} (before : A) (block : outcome A * list E)
  : A * list E :=
  match fst block with
  | Return after => (after, snd block)
  | Raise _ => (before, snd block)
  end.

Definition is_en {number : Type} (t : Transcript.t number) : bool :=
  Transcript.language_code t =? "en".

(** The body of the first inner [try]. *)
Definition manual_block {number : Type} (transcript_list : list (Transcript.t number))
           (st : locals number) : outcome (locals number) * list (event number) :=
  let manual_transcripts :=
    filter (fun t => negb (Transcript.is_generated t)) transcript_list in
  match manual_transcripts with
  | [] => (Return st, [])
  | transcript_to_fetch :: _ =>
      match find is_en manual_transcripts with
      | Some english_manual =>
          match Transcript.fetch english_manual with
          | Return fetched =>
              (Return (Build_locals (Some fetched) (Some "en") false),
               [Fetch english_manual])
          | Raise e => (Raise e, [Fetch english_manual])
          end
      | None =>
          match Transcript.fetch transcript_to_fetch with
          | Return fetched =>
              (Return (Build_locals (Some fetched)
                         (Some (Transcript.language_code transcript_to_fetch))
                         false),
               [Fetch transcript_to_fetch])
          | Raise e => (Raise e, [Fetch transcript_to_fetch])
          end
      end
  end.

(** The body of the second inner [try]. *)
Definition generated_block {number : Type} (transcript_list : list (Transcript.t number))
           (st : locals number) : outcome (locals number) * list (event number) :=
  let generated_transcripts :=
    filter Transcript.is_generated transcript_list in
  match generated_transcripts with
  | [] => (Return st, [])
  | transcript_to_fetch :: _ =>
      match find is_en generated_transcripts with
      | Some english_generated =>
          match Transcript.fetch english_generated with
          | Return fetched =>
              (Return (Build_locals (Some fetched) (Some "en_generated") true),
               [Fetch english_generated])
          | Raise e => (Raise e, [Fetch english_generated])
          end
      | None =>
          match Transcript.fetch transcript_to_fetch with
          | Return fetched =>
              (Return (Build_locals (Some fetched)
                         (Some (Transcript.language_code transcript_to_fetch
                                ++ "_generated"))
                         true),
               [Fetch transcript_to_fetch])
          | Raise e => (Raise e, [Fetch transcript_to_fetch])
          end
      end
  end.

(** Lines 73 to 75: the locals before the first attempt. *)
Definition st0 {number : Type} : locals number := Build_locals None None false.

(** Lines 77 to 121: the locals after both attempts. *)
Definition select {number : Type} (transcript_list : list (Transcript.t number))
  : locals number * list (event number) :=
  let (st1, log1) := suppress st0 (manual_block transcript_list st0) in
  if negb (truthy (found_transcript st1))
  then
    let (st2, log2) := suppress st1 (generated_block transcript_list st1) in
    (st2, (log1 ++ log2)%list)
  else (st1, log1).

(** Lines 123 to 146.  Calling [endswith] on a [language_code] that is
    still [None] raises [AttributeError]. *)
Definition respond {number : Type} (st : locals number) : outcome response :=
  if truthy (found_transcript st)
  then
    let transcript_text :=
      PyStr.join " "
        (map Transcript.text
           (match found_transcript st with Some l => l | None => [] end)) in
    match language_code st with
    | None =>
        Raise (OtherException
                 "'NoneType' object has no attribute 'endswith'")
    | Some code =>
        let final_language_code :=
          if is_generated st && negb (PyStr.endswith code "_generated")
          then code ++ "_generated"
          else if negb (is_generated st) && PyStr.endswith code "_generated"
          then PyStr.replace code "_generated" ""
          else code in
        Return (succeeded final_language_code transcript_text)
    end
  else Return (failed "no_transcript_available").

(** The three [except] clauses of the outer [try], in order. *)
Definition handle (e : exn) : response :=
  match e with
  | TranscriptsDisabled _ => failed "transcripts_disabled"
  | NoTranscriptFound _ => failed "no_transcript_found_for_video"
  | OtherException _ => failed ("other: " ++ str e)
  end.

(** Lines 44 to 63: the client, with the proxy when both credentials are
    set and non-empty, and the warning printed otherwise. *)
Definition proxy_config {number : Type} (w : world number)
  : option WebshareProxyConfig :=
  match getenv w "WEBSHARE_USERNAME", getenv w "WEBSHARE_PASSWORD" with
  | Some username, Some password =>
      if PyStr.truthy username && PyStr.truthy password
      then Some {| proxy_username := username; proxy_password := password |}
      else None
  | _, _ => None
  end.

Definition warning : string :=
  "Warning: WEBSHARE_USERNAME or WEBSHARE_PASSWORD not set. Proceeding without proxy.".

Definition configure {number : Type} (w : world number) : list (event number) :=
  match proxy_config w with
  | Some _ => []
  | None => [Print warning]
  end.

(** The body of the outer [try]. *)
Definition outer_block {number : Type} (ytt_api : client number)
           (video_id : string) : outcome response * list (event number) :=
  match list_transcripts ytt_api video_id with
  | Raise e => (Raise e, [])
  | Return transcript_list =>
      let (st, log) := select transcript_list in
      (respond st, log)
  end.

(** The endpoint: the response and the effects that produced it. *)
Definition get_transcript {number : Type} (w : world number) (url : string)
  : response * list (event number) :=
  match extract_video_id url with
  | None => (failed "invalid_url", [])
  | Some video_id =>
      if negb (PyStr.truthy video_id)
      then (failed "invalid_url", [])
      else
        let cfg := proxy_config w in
        let ytt_api := YouTubeTranscriptApi w cfg in
        let (result, log) := outer_block ytt_api video_id in
        (match result with
         | Return r => r
         | Raise e => handle e
         end,
         (configure w ++ ListTranscripts cfg video_id :: log)%list)
  end.

(** ** Notions used to state the properties *)

(** The pattern at position [i] of the list, counting from 0. *)
Definition rule (i : nat) : Re.regex := nth i patterns (Re.Str "").

(** The request for [url] resolves to [video_id] and the listing for it
    returns [transcript_list]. *)
Definition serves {number : Type} (w : world number) (url video_id : string)
           (transcript_list : list (Transcript.t number)) : Prop :=
  extract_video_id url = Some video_id
  /\ video_id <> ""
  /\ list_transcripts (YouTubeTranscriptApi w (proxy_config w)) video_id
     = Return transcript_list.

(** The events of a request that lists [video_id] and then performs the
    fetches [fetches]. *)
Definition session {number : Type} (w : world number) (video_id : string)
           (fetches : list (Transcript.t number)) : list (event number) :=
  (configure w ++ ListTranscripts (proxy_config w) video_id :: map Fetch fetches)%list.

(** What fetching [d] in a block returns to the enclosing [try]: the
    locals assigned after a successful fetch, or the exception raised. *)
Definition attempt {number : Type} (d : Transcript.t number)
           (code : string) (generated : bool) : outcome (locals number) :=
  match Transcript.fetch d with
  | Return fetched => Return (Build_locals (Some fetched) (Some code) generated)
  | Raise e => Raise e
  end.

Module Spec.

(** The rule of the specification for one group ([generated] tells
    which): [d] is the first descriptor of the group whose language code
    is "en", or the group has none and [d] is its first descriptor. *)
Definition picks {number : Type} (generated : bool)
           (transcript_list : list (Transcript.t number))
           (d : Transcript.t number) : Prop :=
  exists before after,
    transcript_list = (before ++ d :: after)%list
    /\ Transcript.is_generated d = generated
    /\ ((Transcript.language_code d = "en"
         /\ forall x, In x before ->
                      Transcript.is_generated x = generated ->
                      Transcript.language_code x <> "en")
        \/ ((forall x, In x transcript_list ->
                       Transcript.is_generated x = generated ->
                       Transcript.language_code x <> "en")
            /\ forall x, In x before ->
                         Transcript.is_generated x <> generated)).

(** A fetch that gives the selector something to return: it does not
    raise and has at least one segment. *)
Definition yields {number : Type} (d : Transcript.t number)
           (segments : list (Transcript.segment number)) : Prop :=
  Transcript.fetch d = Return segments /\ segments <> [].

(** The group yields nothing: the descriptor the rule picks in it, if
    any, raises or returns no segment. *)
Definition barren {number : Type} (generated : bool)
           (transcript_list : list (Transcript.t number)) : Prop :=
  forall d segments, picks generated transcript_list d -> ~ yields d segments.

(** The space-joined texts of a list of segments. *)
Definition body {number : Type} (segments : list (Transcript.segment number))
  : string :=
  PyStr.join " " (map Transcript.text segments).

Definition is_separator (c : ascii) : bool := existsb (Ascii.eqb c) separators.

(** The longest prefix of [s] without a separator, and what follows it. *)
Fixpoint span (s : string) : string :=
  match s with
  | String c s' => if is_separator c then "" else String c (span s')
  | "" => ""
  end.

Fixpoint rest (s : string) : string :=
  match s with
  | String c s' => if is_separator c then s else rest s'
  | "" => ""
  end.

End Spec.

(** ** Sample requests *)

Module Sample.

Definition seg (t : string) (at_ : nat) : Transcript.segment nat :=
  Transcript.Segment t at_ 1.

Definition hello : list (Transcript.segment nat) :=
  [seg "Hello" 0; seg "world" 1].

Definition manual (code : string) (f : outcome (list (Transcript.segment nat)))
  : Transcript.t nat := Transcript.Make code false f.

Definition generated (code : string) (f : outcome (list (Transcript.segment nat)))
  : Transcript.t nat := Transcript.Make code true f.

Definition boom : exn := OtherException "boom".

(** No proxy credentials; every listing gives [r]. *)
Definition listing (r : outcome (list (Transcript.t nat))) : world nat :=
  {| getenv := fun _ => None;
     YouTubeTranscriptApi := fun _ => {| list_transcripts := fun _ => r |} |}.

Definition url : string := "https://youtu.be/abc".

(** Both proxy credentials set; every listing gives [r]. *)
Definition proxied (r : outcome (list (Transcript.t nat))) : world nat :=
  {| getenv := fun name =>
                 if name =? "WEBSHARE_USERNAME" then Some "user"
                 else if name =? "WEBSHARE_PASSWORD" then Some "secret"
                 else None;
     YouTubeTranscriptApi := fun _ => {| list_transcripts := fun _ => r |} |}.

Definition fr_fails_de_en : list (Transcript.t nat) :=
  [manual "fr" (Raise boom); manual "de" (Return hello);
   generated "en" (Return hello)].

Definition fr_en : list (Transcript.t nat) :=
  [manual "fr" (Return hello); generated "en" (Return hello)].

Definition en_en : list (Transcript.t nat) :=
  [manual "en" (Return hello); generated "en" (Return hello)].

Definition es_en : list (Transcript.t nat) :=
  [generated "es" (Return hello); generated "en" (Return hello)].

Definition fails_then_en : list (Transcript.t nat) :=
  [manual "en" (Raise boom); generated "en" (Return hello)].

Definition empty_fr_then_en : list (Transcript.t nat) :=
  [manual "fr" (Return []); generated "en" (Return hello)].

Definition suffixed : list (Transcript.t nat) :=
  [manual "fr_generated" (Return hello)].

Definition empty_en : list (Transcript.t nat) := [manual "en" (Return [])].

Definition empty_generated_en : list (Transcript.t nat) :=
  [generated "en" (Return [])].

Definition failing_en : list (Transcript.t nat) := [manual "en" (Raise boom)].

Definition empty_de : list (Transcript.t nat) := [manual "de" (Return [])].

End Sample.

(** * Properties *)

(** ** Strings *)

Lemma append_assoc (a b c : string) : (a ++ b) ++ c = a ++ (b ++ c).
Proof. induction a as [|x a IH]; simpl; [reflexivity | now rewrite IH]. Qed.

Lemma append_empty_r (a : string) : a ++ "" = a.
Proof. induction a as [|x a IH]; simpl; [reflexivity | now rewrite IH]. Qed.

Lemma length_append (a b : string) :
  String.length (a ++ b) = String.length a + String.length b.
Proof. induction a as [|x a IH]; simpl; [reflexivity | now rewrite IH]. Qed.

Lemma span_rest (s : string) : s = Spec.span s ++ Spec.rest s.
Proof.
  induction s as [|c s IH]; simpl; [reflexivity|].
  destruct (Spec.is_separator c); simpl; [reflexivity | now rewrite <- IH].
Qed.

Lemma rest_head (s : string) :
  Spec.rest s = ""
  \/ exists c r, Spec.rest s = String c r /\ Spec.is_separator c = true.
Proof.
  induction s as [|c s IH]; simpl; [now left|].
  destruct (Spec.is_separator c) eqn:E; [right; now exists c, s | exact IH].
Qed.

Lemma span_clean (s : string) (c : ascii) :
  In c (list_ascii_of_string (Spec.span s)) -> Spec.is_separator c = false.
Proof.
  induction s as [|a s IH]; simpl; [tauto|].
  destruct (Spec.is_separator a) eqn:E; simpl; [tauto|].
  intros [<- | H]; [exact E | exact (IH H)].
Qed.

Lemma rest_length (s : string) : String.length (Spec.rest s) <= String.length s.
Proof.
  induction s as [|c s IH]; simpl; [lia|].
  destruct (Spec.is_separator c); simpl; lia.
Qed.

Lemma take_span (s : string) :
  PyStr.take (String.length s - String.length (Spec.rest s)) s = Spec.span s.
Proof.
  induction s as [|c s IH]; [reflexivity|].
  cbn [Spec.rest Spec.span].
  destruct (Spec.is_separator c).
  - now rewrite Nat.sub_diag.
  - pose proof (rest_length s) as L.
    cbn [String.length].
    replace (S (String.length s) - String.length (Spec.rest s))
      with (S (String.length s - String.length (Spec.rest s))) by lia.
    cbn [PyStr.take]. now rewrite IH.
Qed.

Lemma is_separator_spec (c : ascii) :
  Spec.is_separator c = true <-> In c separators.
Proof.
  unfold Spec.is_separator. rewrite existsb_exists. split.
  - intros [x [Hx E]]. apply Ascii.eqb_eq in E. now subst.
  - intros H. exists c. split; [exact H | apply Ascii.eqb_refl].
Qed.

(** ** The matcher *)

Lemma lit_append (t s s' : string) : Re.lit t s = Some s' -> s = t ++ s'.
Proof.
  revert s; induction t as [|a t IH]; intros [|b s]; simpl; try congruence.
  destruct (Ascii.eqb a b) eqn:E; [|discriminate].
  apply Ascii.eqb_eq in E. subst b. intros H. now rewrite (IH _ H).
Qed.

Lemma star_suffix {R : Type} (p : ascii -> bool) (k : string -> option R)
      (s : string) (m : R) :
  Re.star p s k = Some m -> exists pre s', s = pre ++ s' /\ k s' = Some m.
Proof.
  induction s as [|c s IH]; simpl.
  - intros H. now exists "", "".
  - destruct (p c).
    + destruct (Re.star p s k) as [m'|] eqn:E.
      * intros H. injection H as ->.
        destruct (IH eq_refl) as (pre & s' & -> & Hk).
        now exists (String c pre), s'.
      * intros H. now exists "", (String c s).
    + intros H. now exists "", (String c s).
Qed.

Lemma star_accept {R : Type} (p : ascii -> bool) (s : string) (m : R) :
  Re.star p s (fun _ => Some m) = Some m.
Proof.
  induction s as [|c s IH]; simpl; [reflexivity|].
  destruct (p c); [now rewrite IH | reflexivity].
Qed.

(** When the continuation cannot fail, the greedy run of [[^#&?]] stops
    exactly at the first separator. *)
Lemma star_rest {R : Type} (k : string -> option R) (s : string) :
  (forall s', k s' <> None) ->
  Re.star (Re.accepts (Re.Except separators)) s k = k (Spec.rest s).
Proof.
  intros Hk. induction s as [|c s IH]; [reflexivity|].
  cbn [Re.star Spec.rest].
  change (Re.accepts (Re.Except separators) c) with (negb (Spec.is_separator c)).
  destruct (Spec.is_separator c); cbn [negb]; [reflexivity|].
  rewrite IH. destruct (k (Spec.rest s)) eqn:E; [reflexivity|].
  now elim (Hk (Spec.rest s)).
Qed.

Lemma run_capture_tail (s : string) (g : option string) :
  Re.run capture_tail s g Re.accept
  = Some (Re.MatchObject (Some (Spec.span s))).
Proof.
  unfold capture_tail. cbn [Re.run].
  rewrite star_rest.
  - unfold Re.accept. now rewrite star_accept, take_span.
  - intros s'. unfold Re.accept. now rewrite star_accept.
Qed.

Lemma run_suffix (r : Re.regex) :
  forall s g k m,
    Re.run r s g k = Some m ->
    exists pre s' g', s = pre ++ s' /\ k s' g' = Some m.
Proof.
  induction r as [t|c|r1 IH1 r2 IH2|r1 IH1 r2 IH2|c|r IH]; intros s g k m; cbn [Re.run].
  - destruct (Re.lit t s) as [s'|] eqn:E; [|discriminate].
    intros H. exists t, s', g. split; [now apply lit_append | exact H].
  - destruct s as [|a s]; [discriminate|].
    destruct (Re.accepts c a); [|discriminate].
    intros H. now exists (String a ""), s, g.
  - intros H. apply IH1 in H. destruct H as (p1 & s1 & g1 & -> & H).
    apply IH2 in H. destruct H as (p2 & s2 & g2 & -> & H).
    exists (p1 ++ p2), s2, g2. split; [now rewrite append_assoc | exact H].
  - destruct (Re.run r1 s g k) as [m'|] eqn:E.
    + intros H. injection H as ->. now apply IH1 in E.
    + intros H. now apply IH2 in H.
  - intros H. apply star_suffix in H. destruct H as (pre & s' & -> & H).
    now exists pre, s', g.
  - intros H. apply IH in H. destruct H as (pre & s' & g' & -> & H).
    now exists pre, s', (Some (PyStr.take (String.length (pre ++ s') - String.length s') (pre ++ s'))).
Qed.

(** A match of [lead] followed by the common ending captures the longest
    separator-free text that follows the lead. *)
Lemma match_at_capture (lead : Re.regex) (t : string) (m : Re.match_object) :
  Re.match_at (Re.Cat lead capture_tail) t = Some m ->
  exists pre s', t = pre ++ s' /\ m = Re.MatchObject (Some (Spec.span s')).
Proof.
  unfold Re.match_at. cbn [Re.run]. intros H.
  apply run_suffix in H. destruct H as (pre & s' & g' & -> & H).
  rewrite run_capture_tail in H. injection H as <-. now exists pre, s'.
Qed.

Lemma search_some (r : Re.regex) (s : string) (m : Re.match_object) :
  Re.search r s = Some m ->
  exists pre t, s = pre ++ t /\ Re.match_at r t = Some m.
Proof.
  induction s as [|c s IH]; cbn [Re.search].
  - destruct (Re.match_at r "") eqn:E; [|discriminate].
    intros H. injection H as ->. now exists "", "".
  - destruct (Re.match_at r (String c s)) eqn:E.
    + intros H. injection H as ->. now exists "", (String c s).
    + intros H. destruct (IH H) as (pre & t & -> & Ht).
      now exists (String c pre), t.
Qed.

Lemma search_none (r : Re.regex) (s : string) :
  Re.search r s = None <->
  forall pre t, s = pre ++ t -> Re.match_at r t = None.
Proof.
  induction s as [|c s IH]; cbn [Re.search].
  - destruct (Re.match_at r "") eqn:E; split; try discriminate.
    + intros H. now rewrite (H "" "" eq_refl) in E.
    + intros _ [|a pre] t; simpl; [intros <-; exact E | discriminate].
    + reflexivity.
  - destruct (Re.match_at r (String c s)) eqn:E; split; try discriminate.
    + intros H. now rewrite (H "" _ eq_refl) in E.
    + intros H [|a pre] t; simpl.
      * intros <-. exact E.
      * intros Heq. injection Heq as -> ->. now apply (proj1 IH H pre t).
    + intros H. apply IH. intros pre t ->. now apply (H (String c pre) t).
Qed.

Lemma search_capture (lead : Re.regex) (url : string) (m : Re.match_object) :
  Re.search (Re.Cat lead capture_tail) url = Some m ->
  exists pre s', url = pre ++ s' /\ m = Re.MatchObject (Some (Spec.span s')).
Proof.
  intros H. apply search_some in H. destruct H as (p1 & t & -> & H).
  apply match_at_capture in H. destruct H as (p2 & s' & -> & ->).
  exists (p1 ++ p2), s'. now rewrite append_assoc.
Qed.

(** ** The URL resolver *)

Lemma patterns_capture (r : Re.regex) (url : string) (m : Re.match_object) :
  In r patterns -> Re.search r url = Some m ->
  exists pre s', url = pre ++ s' /\ m = Re.MatchObject (Some (Spec.span s')).
Proof.
  unfold patterns. cbn [In].
  intros [<- | [<- | [<- | []]]]; apply search_capture.
Qed.

(** C4: [extract_video_id] returns what the first pattern that matches
    captured, in the order of the list, whatever the later patterns would
    capture; the identifier is the text up to the first "#", "&" or "?"
    (or the end of the string); the result is [None] exactly when no pattern
    matches at any position, as for the empty string and "not a url". *)
Theorem extract_video_id_first_match :
  (forall url,
      match Re.search (rule 0) url with
      | Some m => extract_video_id url = Re.group1 m
      | None =>
          match Re.search (rule 1) url with
          | Some m => extract_video_id url = Re.group1 m
          | None =>
              match Re.search (rule 2) url with
              | Some m => extract_video_id url = Re.group1 m
              | None => extract_video_id url = None
              end
          end
      end)
  /\ (forall url id,
         extract_video_id url = Some id ->
         exists pre post,
           url = pre ++ id ++ post
           /\ (forall c, In c (list_ascii_of_string id) -> ~ In c separators)
           /\ (post = ""
               \/ exists c post', post = String c post' /\ In c separators))
  /\ (forall url,
         extract_video_id url = None <->
         forall r, In r patterns ->
                   forall pre t, url = pre ++ t -> Re.match_at r t = None)
  /\ extract_video_id "" = None
  /\ extract_video_id "not a url" = None
  /\ (Re.search (rule 1) "https://youtube.com/shorts/abc?v=xyz"
      = Some (Re.MatchObject (Some "abc"))
      /\ extract_video_id "https://youtube.com/shorts/abc?v=xyz" = Some "xyz").
Proof.
  split; [|split; [|split; [|repeat split]]].
  - intros url. unfold extract_video_id, rule, patterns.
    cbn [first_match nth].
    destruct (Re.search _ url); [reflexivity|].
    destruct (Re.search _ url); [reflexivity|].
    destruct (Re.search _ url); reflexivity.
  - intros url id H.
    assert (exists r m, In r patterns /\ Re.search r url = Some m
                        /\ Re.group1 m = Some id) as (r & m & Hr & Hs & Hg).
    { unfold extract_video_id in H. unfold patterns in *.
      cbn [first_match] in H.
      repeat match type of H with
             | match Re.search ?r0 url with _ => _ end = _ =>
                 destruct (Re.search r0 url) as [m|] eqn:?;
                 [exists r0, m; split;
                  [cbn [In]; tauto | split; assumption]|]
             end.
      discriminate. }
    destruct (patterns_capture r url m Hr Hs) as (pre & s' & -> & ->).
    cbn [Re.group1] in Hg. injection Hg as <-.
    exists pre, (Spec.rest s'). split; [|split].
    + now rewrite <- span_rest.
    + intros c Hc Hsep. apply span_clean in Hc.
      apply is_separator_spec in Hsep. congruence.
    + destruct (rest_head s') as [E | (c & r' & E & Hc)]; [now left|].
      right. exists c, r'. split; [exact E | now apply is_separator_spec].
  - intros url. split.
    + intros H r Hr. apply search_none.
      destruct (Re.search r url) as [m|] eqn:E; [exfalso | reflexivity].
      destruct (patterns_capture r url m Hr E) as (pre & s' & _ & ->).
      unfold extract_video_id, patterns in *. cbn [first_match In] in *.
      destruct Hr as [<- | [<- | [<- | []]]].
      * rewrite E in H. discriminate.
      * destruct (Re.search _ url) as [m1|] eqn:E1 in H.
        { destruct (search_capture _ _ _ E1) as (? & ? & _ & ->). discriminate. }
        rewrite E in H. discriminate.
      * destruct (Re.search _ url) as [m1|] eqn:E1 in H.
        { destruct (search_capture _ _ _ E1) as (? & ? & _ & ->). discriminate. }
        destruct (Re.search _ url) as [m2|] eqn:E2 in H.
        { destruct (search_capture _ _ _ E2) as (? & ? & _ & ->). discriminate. }
        rewrite E in H. discriminate.
    + intros H. unfold extract_video_id, patterns. cbn [first_match].
      rewrite (proj2 (search_none _ url) (H _ (or_introl eq_refl))).
      rewrite (proj2 (search_none _ url) (H _ (or_intror (or_introl eq_refl)))).
      now rewrite (proj2 (search_none _ url)
                     (H _ (or_intror (or_intror (or_introl eq_refl))))).
Qed.

(** The URL shapes that the specification lists. *)
Example recognized_shapes :
  extract_video_id "https://www.youtube.com/watch?v=dQw4w9WgXcQ&t=3"
  = Some "dQw4w9WgXcQ"
  /\ extract_video_id "https://youtu.be/dQw4w9WgXcQ?t=3" = Some "dQw4w9WgXcQ"
  /\ extract_video_id "https://www.youtube.com/embed/dQw4w9WgXcQ#x"
     = Some "dQw4w9WgXcQ"
  /\ extract_video_id "https://www.youtube.com/v/dQw4w9WgXcQ" = Some "dQw4w9WgXcQ"
  /\ extract_video_id "https://www.youtube.com/e/dQw4w9WgXcQ" = Some "dQw4w9WgXcQ"
  /\ extract_video_id "https://www.youtube.com/shorts/dQw4w9WgXcQ?x=1"
     = Some "dQw4w9WgXcQ"
  /\ extract_video_id "https://www.youtube.com/live/dQw4w9WgXcQ" = Some "dQw4w9WgXcQ".
Proof. repeat split. Qed.

Lemma extract_video_id_first_match_witness :
  exists pre post,
    "https://youtu.be/abc?x" = pre ++ "abc" ++ post
    /\ (forall c, In c (list_ascii_of_string "abc") -> ~ In c separators)
    /\ (post = ""
        \/ exists c post', post = String c post' /\ In c separators).
Proof.
  apply (proj1 (proj2 extract_video_id_first_match) "https://youtu.be/abc?x" "abc").
  reflexivity.
Defined.

(** ** Choosing a descriptor in a group *)

Section Groups.

Context {number : Type}.

Variable p : Transcript.t number -> bool.
Variable generated : bool.
Hypothesis p_group :
  forall t, p t = true <-> Transcript.is_generated t = generated.

Lemma find_en_filter (before after : list (Transcript.t number)) (d : Transcript.t number) :
  p d = true -> is_en d = true ->
  (forall x, In x before -> p x = true -> is_en x = false) ->
  find is_en (filter p (before ++ d :: after)) = Some d.
Proof.
  intros Hd He. induction before as [|a before IH]; intros Hb; simpl.
  - rewrite Hd. simpl. now rewrite He.
  - destruct (p a) eqn:Ea.
    + simpl. rewrite (Hb a (or_introl eq_refl) Ea).
      apply IH. intros x Hx. apply Hb. now right.
    + apply IH. intros x Hx. apply Hb. now right.
Qed.

Lemma filter_first (before after : list (Transcript.t number)) (d : Transcript.t number) :
  p d = true -> (forall x, In x before -> p x = false) ->
  filter p (before ++ d :: after) = d :: filter p after.
Proof.
  intros Hd. induction before as [|a before IH]; intros Hb; simpl.
  - now rewrite Hd.
  - rewrite (Hb a (or_introl eq_refl)). apply IH.
    intros x Hx. apply Hb. now right.
Qed.

Lemma find_filter_none (q : Transcript.t number -> bool) (l : list (Transcript.t number)) :
  (forall x, In x l -> p x = true -> q x = false) ->
  find q (filter p l) = None.
Proof.
  induction l as [|a l IH]; intros H; simpl; [reflexivity|].
  destruct (p a) eqn:Ea.
  - simpl. rewrite (H a (or_introl eq_refl) Ea).
    apply IH. intros x Hx. apply H. now right.
  - apply IH. intros x Hx. apply H. now right.
Qed.

Lemma not_en (x : Transcript.t number) :
  Transcript.language_code x <> "en" -> is_en x = false.
Proof. intros H. unfold is_en. now apply String.eqb_neq. Qed.

Lemma outside_group (x : Transcript.t number) :
  Transcript.is_generated x <> generated -> p x = false.
Proof.
  intros H. destruct (p x) eqn:E; [|reflexivity].
  now apply p_group in E.
Qed.

(** What the two lookups of a block find when the rule picks [d]. *)
Lemma picks_filter (tl : list (Transcript.t number)) (d : Transcript.t number) :
  Spec.picks generated tl d ->
  exists first others,
    filter p tl = first :: others
    /\ ((find is_en (first :: others) = Some d
         /\ Transcript.language_code d = "en")
        \/ (find is_en (first :: others) = None /\ first = d)).
Proof.
  intros (before & after & -> & Hg & [[Hen Hb] | [Hnone Hb]]).
  - assert (Hd : p d = true) by now apply p_group.
    assert (Hf : find is_en (filter p (before ++ d :: after)) = Some d).
    { apply find_en_filter; [exact Hd | unfold is_en; now rewrite Hen |].
      intros x Hx Hpx. apply not_en, Hb; [exact Hx | now apply p_group]. }
    destruct (filter p (before ++ d :: after)) as [|first others];
      [discriminate|].
    exists first, others. split; [reflexivity | now left].
  - assert (Hd : p d = true) by now apply p_group.
    rewrite filter_first;
      [|exact Hd | intros x Hx; now apply outside_group, Hb].
    exists d, (filter p after). split; [reflexivity | right; split; [|reflexivity]].
    rewrite <- (filter_first before after d);
      [|exact Hd | intros x Hx; now apply outside_group, Hb].
    apply find_filter_none. intros x Hx Hpx.
    apply not_en, Hnone; [exact Hx | now apply p_group].
Qed.

Lemma find_split (q : Transcript.t number -> bool) (l : list (Transcript.t number)) (d : Transcript.t number) :
  find q l = Some d ->
  exists before after,
    l = (before ++ d :: after)%list /\ q d = true
    /\ forall x, In x before -> q x = false.
Proof.
  induction l as [|a l IH]; simpl; [discriminate|].
  destruct (q a) eqn:Ea.
  - intros H. injection H as ->. exists [], l. repeat split; [exact Ea|].
    intros x [].
  - intros H. destruct (IH H) as (before & after & -> & Hd & Hb).
    exists (a :: before), after. repeat split; [exact Hd|].
    intros x [<- | Hx]; [exact Ea | now apply Hb].
Qed.

(** Either the group is empty or the rule picks one of its members. *)
Lemma group_cases (tl : list (Transcript.t number)) :
  (forall x, In x tl -> Transcript.is_generated x <> generated)
  \/ exists d, Spec.picks generated tl d.
Proof.
  destruct (find (fun t => p t && is_en t) tl) as [d|] eqn:Een.
  - right. exists d.
    destruct (find_split _ _ _ Een) as (before & after & -> & Hd & Hb).
    apply andb_true_iff in Hd. destruct Hd as [Hp He].
    exists before, after. split; [reflexivity|]. split; [now apply p_group|].
    left. split; [now apply String.eqb_eq in He|].
    intros x Hx Hgx Hcx. specialize (Hb x Hx).
    apply p_group in Hgx. unfold is_en in Hb. rewrite Hgx, Hcx in Hb.
    discriminate.
  - destruct (find p tl) as [d|] eqn:Efirst.
    + right. exists d.
      destruct (find_split _ _ _ Efirst) as (before & after & E & Hd & Hb).
      exists before, after. split; [exact E|]. split; [now apply p_group|].
      right. split.
      * intros x Hx Hgx Hcx.
        pose proof (find_none _ _ Een x Hx) as Hn. cbv beta in Hn.
        apply p_group in Hgx. unfold is_en in Hn. rewrite Hgx, Hcx in Hn.
        discriminate.
      * intros x Hx Hgx. apply p_group in Hgx.
        rewrite (Hb x Hx) in Hgx. discriminate.
    + left. intros x Hx Hgx. apply p_group in Hgx.
      rewrite (find_none _ _ Efirst x Hx) in Hgx. discriminate.
Qed.

Lemma empty_group (tl : list (Transcript.t number)) :
  (forall x, In x tl -> Transcript.is_generated x <> generated) ->
  filter p tl = [].
Proof.
  intros H. induction tl as [|a tl IH]; simpl; [reflexivity|].
  rewrite (outside_group a (H a (or_introl eq_refl))).
  apply IH. intros x Hx. apply H. now right.
Qed.

End Groups.

Lemma manual_group {number : Type} (t : Transcript.t number) :
  negb (Transcript.is_generated t) = true <-> Transcript.is_generated t = false.
Proof. destruct (Transcript.is_generated t); simpl; split; congruence. Qed.

Lemma generated_group {number : Type} (t : Transcript.t number) :
  Transcript.is_generated t = true <-> Transcript.is_generated t = true.
Proof. tauto. Qed.

Lemma manual_block_picks {number : Type} (tl : list (Transcript.t number))
      (st : locals number) (d : Transcript.t number) :
  Spec.picks false tl d ->
  manual_block tl st
  = (attempt d (Transcript.language_code d) false, [Fetch d]).
Proof.
  intros H. unfold manual_block, attempt. cbv zeta.
  destruct (picks_filter _ false manual_group tl d H)
    as (first & others & -> & [[-> ->] | [-> ->]]);
    destruct (Transcript.fetch d); reflexivity.
Qed.

Lemma generated_block_picks {number : Type} (tl : list (Transcript.t number))
      (st : locals number) (d : Transcript.t number) :
  Spec.picks true tl d ->
  generated_block tl st
  = (attempt d (Transcript.language_code d ++ "_generated") true, [Fetch d]).
Proof.
  intros H. unfold generated_block, attempt. cbv zeta.
  destruct (picks_filter _ true generated_group tl d H)
    as (first & others & -> & [[-> ->] | [-> ->]]);
    destruct (Transcript.fetch d); reflexivity.
Qed.

Lemma manual_block_empty {number : Type} (tl : list (Transcript.t number))
      (st : locals number) :
  (forall x, In x tl -> Transcript.is_generated x <> false) ->
  manual_block tl st = (Return st, []).
Proof.
  intros H. unfold manual_block. cbv zeta.
  now rewrite (empty_group _ false manual_group tl H).
Qed.

Lemma generated_block_empty {number : Type} (tl : list (Transcript.t number))
      (st : locals number) :
  (forall x, In x tl -> Transcript.is_generated x <> true) ->
  generated_block tl st = (Return st, []).
Proof.
  intros H. unfold generated_block. cbv zeta.
  now rewrite (empty_group _ true generated_group tl H).
Qed.

Lemma picks_unique {number : Type} (generated : bool)
      (tl : list (Transcript.t number)) (d d' : Transcript.t number) :
  Spec.picks generated tl d -> Spec.picks generated tl d' -> d = d'.
Proof.
  intros H H'. set (st := @st0 number).
  destruct generated.
  - pose proof (generated_block_picks tl st d H) as E.
    rewrite (generated_block_picks tl st d' H') in E.
    now injection E.
  - pose proof (manual_block_picks tl st d H) as E.
    rewrite (manual_block_picks tl st d' H') in E.
    now injection E.
Qed.

Lemma picks_in {number : Type} (generated : bool)
      (tl : list (Transcript.t number)) (d : Transcript.t number) :
  Spec.picks generated tl d ->
  In d tl /\ Transcript.is_generated d = generated.
Proof.
  intros (before & after & -> & Hg & _). split; [|exact Hg].
  apply in_or_app. right. now left.
Qed.

Lemma yields_unique {number : Type} (d : Transcript.t number)
      (s s' : list (Transcript.segment number)) :
  Spec.yields d s -> Spec.yields d s' -> s = s'.
Proof. intros [E _] [E' _]. congruence. Qed.

Lemma yields_or_not {number : Type} (d : Transcript.t number) :
  (exists segs, Spec.yields d segs) \/ (forall segs, ~ Spec.yields d segs).
Proof.
  unfold Spec.yields. destruct (Transcript.fetch d) as [[|a l]|e].
  - right. intros segs [E N]. injection E as <-. now apply N.
  - left. now exists (a :: l).
  - right. intros segs [E _]. discriminate.
Qed.

(** ** The response *)

Lemma drop_append (a b : string) : PyStr.drop (String.length a) (a ++ b) = b.
Proof. induction a as [|x a IH]; simpl; [now destruct b | exact IH]. Qed.

Lemma endswith_append (a b : string) : PyStr.endswith (a ++ b) b = true.
Proof.
  unfold PyStr.endswith. rewrite length_append.
  replace (String.length a + String.length b - String.length b)
    with (String.length a) by lia.
  rewrite drop_append, String.eqb_refl, andb_true_r.
  apply Nat.leb_le. lia.
Qed.

Lemma respond_manual {number : Type} (segs : list (Transcript.segment number))
      (code : string) :
  segs <> [] ->
  respond (Build_locals (Some segs) (Some code) false)
  = Return (succeeded
              (if PyStr.endswith code "_generated"
               then PyStr.replace code "_generated" ""
               else code)
              (Spec.body segs)).
Proof.
  intros N. destruct segs as [|a l]; [now elim N|].
  unfold respond. cbn [truthy found_transcript language_code is_generated].
  cbn [andb negb]. reflexivity.
Qed.

Lemma respond_generated {number : Type} (segs : list (Transcript.segment number))
      (code : string) :
  segs <> [] ->
  respond (Build_locals (Some segs) (Some (code ++ "_generated")) true)
  = Return (succeeded (code ++ "_generated") (Spec.body segs)).
Proof.
  intros N. destruct segs as [|a l]; [now elim N|].
  unfold respond. cbn [truthy found_transcript language_code is_generated].
  rewrite endswith_append. reflexivity.
Qed.

Lemma respond_falsy {number : Type} (st : locals number) :
  truthy (found_transcript st) = false ->
  respond st = Return (failed "no_transcript_available").
Proof. intros H. unfold respond. now rewrite H. Qed.

(** ** The two attempts *)

Lemma first_attempt {number : Type} (tl : list (Transcript.t number)) :
  (exists d segs,
      Spec.picks false tl d /\ Spec.yields d segs
      /\ suppress st0 (manual_block tl st0)
         = (Build_locals (Some segs) (Some (Transcript.language_code d)) false,
            [Fetch d]))
  \/ (exists st1 tried,
         suppress st0 (manual_block tl st0) = (st1, map Fetch tried)
         /\ truthy (found_transcript st1) = false
         /\ ((tried = []
              /\ forall x, In x tl -> Transcript.is_generated x <> false)
             \/ exists d, tried = [d] /\ Spec.picks false tl d
                          /\ (forall segs, ~ Spec.yields d segs)
                          /\ (forall e, Transcript.fetch d = Raise e -> st1 = st0))).
Proof.
  destruct (group_cases _ false manual_group tl) as [Hnone | [d Hd]].
  - right. exists st0, []. rewrite manual_block_empty by exact Hnone.
    repeat split. now left.
  - rewrite (manual_block_picks tl st0 d Hd). unfold attempt, suppress.
    cbn [fst snd].
    destruct (Transcript.fetch d) as [[|a l]|e] eqn:E.
    + right. eexists; exists [d]. split; [reflexivity|]. split; [reflexivity|].
      right. exists d. repeat split; try exact Hd.
      * intros segs [E' N]. rewrite E in E'. injection E' as <-. now apply N.
      * intros e E'. congruence.
    + left. exists d, (a :: l). repeat split; try assumption. discriminate.
    + right. exists st0, [d]. split; [reflexivity|]. split; [reflexivity|].
      right. exists d. repeat split; try exact Hd.
      intros segs [E' _]. congruence.
Qed.

Lemma second_attempt {number : Type} (tl : list (Transcript.t number))
      (st1 : locals number) :
  truthy (found_transcript st1) = false ->
  (exists g segs,
      Spec.picks true tl g /\ Spec.yields g segs
      /\ suppress st1 (generated_block tl st1)
         = (Build_locals (Some segs)
              (Some (Transcript.language_code g ++ "_generated")) true,
            [Fetch g]))
  \/ (exists st2 tried,
         suppress st1 (generated_block tl st1) = (st2, map Fetch tried)
         /\ truthy (found_transcript st2) = false
         /\ ((tried = []
              /\ forall x, In x tl -> Transcript.is_generated x <> true)
             \/ exists g, tried = [g] /\ Spec.picks true tl g
                          /\ forall segs, ~ Spec.yields g segs)).
Proof.
  intros F.
  destruct (group_cases _ true generated_group tl) as [Hnone | [g Hg]].
  - right. exists st1, []. rewrite generated_block_empty by exact Hnone.
    repeat split; [exact F | now left].
  - rewrite (generated_block_picks tl st1 g Hg). unfold attempt, suppress.
    cbn [fst snd].
    destruct (Transcript.fetch g) as [[|a l]|e] eqn:E.
    + right. eexists; exists [g]. split; [reflexivity|]. split; [reflexivity|].
      right. exists g. repeat split; try exact Hg.
      intros segs [E' N]. rewrite E in E'. injection E' as <-. now apply N.
    + left. exists g, (a :: l). repeat split; try assumption. discriminate.
    + right. exists st1, [g]. split; [reflexivity|]. split; [exact F|].
      right. exists g. repeat split; try exact Hg.
      intros segs [E' _]. congruence.
Qed.

Lemma select_first {number : Type} (tl : list (Transcript.t number))
      (st1 : locals number) (log1 : list (event number)) :
  suppress st0 (manual_block tl st0) = (st1, log1) ->
  truthy (found_transcript st1) = true ->
  select tl = (st1, log1).
Proof.
  intros E T. unfold select.
  rewrite E, T. reflexivity.
Qed.

Lemma select_second {number : Type} (tl : list (Transcript.t number))
      (st1 st2 : locals number) (log1 log2 : list (event number)) :
  suppress st0 (manual_block tl st0) = (st1, log1) ->
  truthy (found_transcript st1) = false ->
  suppress st1 (generated_block tl st1) = (st2, log2) ->
  select tl = (st2, (log1 ++ log2)%list).
Proof.
  intros E F E2. unfold select.
  rewrite E, F. cbn [negb]. rewrite E2. reflexivity.
Qed.

Lemma truthy_yielded {number : Type} (d : Transcript.t number)
      (segs : list (Transcript.segment number)) :
  Spec.yields d segs -> truthy (Some segs) = true.
Proof. intros [_ N]. destruct segs; [now elim N | reflexivity]. Qed.

(** What a served request returns, in terms of [select] and [respond]. *)
Lemma get_transcript_serves {number : Type} (w : world number)
      (url video_id : string) (tl : list (Transcript.t number)) :
  serves w url video_id tl ->
  get_transcript w url
  = (match respond (fst (select tl)) with
     | Return r => r
     | Raise e => handle e
     end,
     (configure w ++ ListTranscripts (proxy_config w) video_id
        :: snd (select tl))%list).
Proof.
  intros (Eid & Nid & El). unfold get_transcript. rewrite Eid.
  assert (PyStr.truthy video_id = true) as ->.
  { unfold PyStr.truthy. apply negb_true_iff. now apply String.eqb_neq. }
  cbn [negb]. cbv zeta. unfold outer_block. rewrite El.
  destruct (select tl) as [st log]. reflexivity.
Qed.

(** The three ways the selection can end. *)
Lemma select_cases {number : Type} (tl : list (Transcript.t number)) :
  (exists d segs,
      Spec.picks false tl d /\ Spec.yields d segs
      /\ select tl
         = (Build_locals (Some segs) (Some (Transcript.language_code d)) false,
            map Fetch [d]))
  \/ (exists tried g segs,
         Spec.picks true tl g /\ Spec.yields g segs
         /\ (forall d, In d tried ->
                       Spec.picks false tl d /\ forall s, ~ Spec.yields d s)
         /\ (tried = [] -> forall x, In x tl -> Transcript.is_generated x <> false)
         /\ select tl
            = (Build_locals (Some segs)
                 (Some (Transcript.language_code g ++ "_generated")) true,
               map Fetch (tried ++ [g])))
  \/ (exists st tried,
         select tl = (st, map Fetch tried)
         /\ truthy (found_transcript st) = false
         /\ forall d, In d tried -> forall s, ~ Spec.yields d s).
Proof.
  destruct (first_attempt tl)
    as [(d & segs & Hd & Hy & E) | (st1 & tried & E & F & Hshape)].
  - left. exists d, segs. split; [exact Hd | split; [exact Hy|]].
    apply select_first; [exact E | now apply (truthy_yielded d)].
  - assert (Htried : forall d, In d tried ->
                                Spec.picks false tl d /\ forall s, ~ Spec.yields d s).
    { destruct Hshape as [[-> _] | (d & -> & Hd & Hn & _)]; [intros d []|].
      intros d' [<- | []]. now split. }
    assert (Hnone : tried = [] ->
                    forall x, In x tl -> Transcript.is_generated x <> false).
    { destruct Hshape as [[_ H] | (d & -> & _)]; [now intros _ | discriminate]. }
    destruct (second_attempt tl st1 F)
      as [(g & segs & Hg & Hy & E2) | (st2 & tried2 & E2 & F2 & Hshape2)].
    + right; left. exists tried, g, segs.
      split; [exact Hg | split; [exact Hy | split; [exact Htried|]]].
      split; [exact Hnone|].
      rewrite (select_second tl st1 _ _ _ E F E2). now rewrite map_app.
    + right; right. exists st2, (tried ++ tried2)%list.
      split; [|split; [exact F2|]].
      * rewrite (select_second tl st1 _ _ _ E F E2). now rewrite map_app.
      * intros d Hin. apply in_app_or in Hin. destruct Hin as [Hin | Hin].
        -- now apply Htried.
        -- destruct Hshape2 as [[-> _] | (g & -> & _ & Hn)]; [destruct Hin|].
           destruct Hin as [<- | []]. exact Hn.
Qed.

(** ** The selection policy *)

(** The request that the manual descriptor [d] answers. *)
Lemma manual_response {number : Type} (w : world number) (url video_id : string)
      (tl : list (Transcript.t number)) (d : Transcript.t number)
      (segs : list (Transcript.segment number)) :
  serves w url video_id tl ->
  Spec.picks false tl d -> Spec.yields d segs ->
  get_transcript w url
  = (succeeded
       (if PyStr.endswith (Transcript.language_code d) "_generated"
        then PyStr.replace (Transcript.language_code d) "_generated" ""
        else Transcript.language_code d)
       (Spec.body segs),
     session w video_id [d]).
Proof.
  intros Hs Hd Hy.
  rewrite (get_transcript_serves w url video_id tl Hs).
  assert (E : select tl
              = (Build_locals (Some segs) (Some (Transcript.language_code d)) false,
                 [Fetch d])).
  { apply select_first; [|now apply (truthy_yielded d)].
    rewrite (manual_block_picks tl st0 d Hd). unfold attempt, suppress.
    destruct Hy as [-> _]. reflexivity. }
  rewrite E. cbn [fst snd]. rewrite respond_manual by apply Hy. reflexivity.
Qed.

(** C1, as the code has it: when the list has a manual descriptor, the
    selector tries exactly one of them, the one the rule picks (the first
    manual "en", else the first manual one), whatever its language; if that
    fetch returns at least one segment, the response is built from it and
    no generated descriptor is fetched.  Given a manual "fr" and a generated
    "en" the response reports "fr". *)
Theorem manual_preferred :
  (forall (number : Type) (w : world number) (url video_id : string)
          (tl : list (Transcript.t number)),
      serves w url video_id tl ->
      (exists m, In m tl /\ Transcript.is_generated m = false) ->
      exists d,
        In d tl /\ Transcript.is_generated d = false /\ Spec.picks false tl d
        /\ forall segs,
            Spec.yields d segs ->
            get_transcript w url
            = (succeeded
                 (if PyStr.endswith (Transcript.language_code d) "_generated"
                  then PyStr.replace (Transcript.language_code d) "_generated" ""
                  else Transcript.language_code d)
                 (Spec.body segs),
               session w video_id [d]))
  /\ (forall (number : Type) (w : world number) (url video_id : string)
             (segs : list (Transcript.segment number))
             (other : outcome (list (Transcript.segment number))),
         segs <> [] ->
         serves w url video_id
                [Transcript.Make "fr" false (Return segs);
                 Transcript.Make "en" true other] ->
         get_transcript w url
         = (succeeded "fr" (Spec.body segs),
            session w video_id [Transcript.Make "fr" false (Return segs)])).
Proof.
  split.
  - intros number w url video_id tl Hs (m & Hm & Hgm).
    destruct (group_cases _ false manual_group tl) as [Hnone | [d Hd]];
      [now elim (Hnone m Hm)|].
    exists d. destruct (picks_in _ _ _ Hd) as [Hin Hg].
    split; [exact Hin | split; [exact Hg | split; [exact Hd|]]].
    intros segs Hy. now apply (manual_response w url video_id tl d segs).
  - intros number w url video_id segs other N Hs.
    apply (manual_response w url video_id _ (Transcript.Make "fr" false (Return segs)) segs Hs).
    + exists [], [Transcript.Make "en" true other].
      split; [reflexivity|]. split; [reflexivity|]. right. split.
      * intros x [<- | [<- | []]]; cbn; intros; discriminate.
      * intros x [].
    + now split.
Qed.

Lemma sample_serves (tl : list (Transcript.t nat)) :
  serves (Sample.listing (Return tl)) Sample.url "abc" tl.
Proof. split; [reflexivity | split; [discriminate | reflexivity]]. Defined.

Lemma manual_preferred_witness :
  (exists d,
      In d Sample.fr_en /\ Transcript.is_generated d = false
      /\ Spec.picks false Sample.fr_en d
      /\ forall segs,
          Spec.yields d segs ->
          get_transcript (Sample.listing (Return Sample.fr_en)) Sample.url
          = (succeeded
               (if PyStr.endswith (Transcript.language_code d) "_generated"
                then PyStr.replace (Transcript.language_code d) "_generated" ""
                else Transcript.language_code d)
               (Spec.body segs),
             session (Sample.listing (Return Sample.fr_en)) "abc" [d]))
  /\ get_transcript (Sample.listing (Return Sample.fr_en)) Sample.url
     = (succeeded "fr" (Spec.body Sample.hello),
        session (Sample.listing (Return Sample.fr_en)) "abc"
                [Transcript.Make "fr" false (Return Sample.hello)]).
Proof.
  split.
  - apply (proj1 manual_preferred nat _ Sample.url "abc" Sample.fr_en).
    + apply sample_serves.
    + exists (Sample.manual "fr" (Return Sample.hello)).
      split; [now left | reflexivity].
  - apply (proj2 manual_preferred nat (Sample.listing (Return Sample.fr_en))
                 Sample.url "abc" Sample.hello (Return Sample.hello)).
    + discriminate.
    + apply sample_serves.
Defined.

(** C1 as stated fails: a manual descriptor whose fetch succeeds exists,
    yet the generated "en" descriptor is the one returned, both when the
    manual descriptor tried first raises and when it returns no segment. *)
Lemma fetchable_manual_passed_over :
  ((exists d segs,
       In d Sample.fr_fails_de_en /\ Transcript.is_generated d = false
       /\ Transcript.fetch d = Return segs /\ segs <> [])
   /\ get_transcript (Sample.listing (Return Sample.fr_fails_de_en)) Sample.url
      = (succeeded "en_generated" "Hello world",
         [Print warning; ListTranscripts None "abc";
          Fetch (Sample.manual "fr" (Raise Sample.boom));
          Fetch (Sample.generated "en" (Return Sample.hello))]))
  /\ ((exists d segs,
          In d Sample.empty_fr_then_en /\ Transcript.is_generated d = false
          /\ Transcript.fetch d = Return segs)
      /\ get_transcript (Sample.listing (Return Sample.empty_fr_then_en)) Sample.url
         = (succeeded "en_generated" "Hello world",
            [Print warning; ListTranscripts None "abc";
             Fetch (Sample.manual "fr" (Return []));
             Fetch (Sample.generated "en" (Return Sample.hello))])).
Proof.
  split; split; try reflexivity.
  - exists (Sample.manual "de" (Return Sample.hello)), Sample.hello.
    split; [right; now left|]. split; [reflexivity|]. split; [reflexivity|].
    discriminate.
  - exists (Sample.manual "fr" (Return [])), [].
    split; [now left|]. split; reflexivity.
Qed.

(** C2, as the code has it: when the manual descriptor that the rule picks
    (the first manual "en", else the first manual one) returns at least one
    segment, it is the only descriptor fetched; the response reports "en"
    for an English one and otherwise the descriptor's own language code,
    provided the code does not end in "_generated"; a code that does is
    reported with every "_generated" removed. *)
Theorem manual_language_reported
        {number : Type} (w : world number) (url video_id : string)
        (tl : list (Transcript.t number)) (d : Transcript.t number)
        (segs : list (Transcript.segment number)) :
  serves w url video_id tl ->
  Spec.picks false tl d ->
  Spec.yields d segs ->
  snd (get_transcript w url) = session w video_id [d]
  /\ success (fst (get_transcript w url)) = true
  /\ (Transcript.language_code d = "en" ->
      language (fst (get_transcript w url)) = Some "en")
  /\ (PyStr.endswith (Transcript.language_code d) "_generated" = false ->
      language (fst (get_transcript w url))
      = Some (Transcript.language_code d))
  /\ (PyStr.endswith (Transcript.language_code d) "_generated" = true ->
      language (fst (get_transcript w url))
      = Some (PyStr.replace (Transcript.language_code d) "_generated" "")).
Proof.
  intros Hs Hd Hy.
  rewrite (manual_response w url video_id tl d segs Hs Hd Hy).
  cbn [fst snd success language succeeded].
  split; [reflexivity | split; [reflexivity|]].
  split; [|split]; intros ->; reflexivity.
Qed.

Lemma manual_language_reported_witness :
  let w := Sample.listing (Return Sample.en_en) in
  let d := Sample.manual "en" (Return Sample.hello) in
  snd (get_transcript w Sample.url) = session w "abc" [d]
  /\ success (fst (get_transcript w Sample.url)) = true
  /\ (Transcript.language_code d = "en" ->
      language (fst (get_transcript w Sample.url)) = Some "en")
  /\ (PyStr.endswith (Transcript.language_code d) "_generated" = false ->
      language (fst (get_transcript w Sample.url))
      = Some (Transcript.language_code d))
  /\ (PyStr.endswith (Transcript.language_code d) "_generated" = true ->
      language (fst (get_transcript w Sample.url))
      = Some (PyStr.replace (Transcript.language_code d) "_generated" "")).
Proof.
  apply (manual_language_reported
           (Sample.listing (Return Sample.en_en)) Sample.url "abc" Sample.en_en
           (Sample.manual "en" (Return Sample.hello)) Sample.hello).
  - apply sample_serves.
  - exists [], [Sample.generated "en" (Return Sample.hello)].
    split; [reflexivity|]. split; [reflexivity|].
    left. split; [reflexivity | intros x []].
  - split; [reflexivity | discriminate].
Defined.

(** C2 as stated fails: a manual descriptor whose code is "fr_generated"
    is fetched and reported as "fr"; and a manual "en" descriptor that
    returns no segment is fetched without "en" being reported. *)
Lemma suffixed_manual_code_rewritten :
  (Spec.picks false Sample.suffixed
              (Sample.manual "fr_generated" (Return Sample.hello))
   /\ get_transcript (Sample.listing (Return Sample.suffixed)) Sample.url
      = (succeeded "fr" "Hello world",
         [Print warning; ListTranscripts None "abc";
          Fetch (Sample.manual "fr_generated" (Return Sample.hello))])
   /\ language (fst (get_transcript (Sample.listing (Return Sample.suffixed))
                                    Sample.url))
      <> Some "fr_generated")
  /\ get_transcript (Sample.listing (Return Sample.empty_en)) Sample.url
     = (failed "no_transcript_available",
        [Print warning; ListTranscripts None "abc";
         Fetch (Sample.manual "en" (Return []))]).
Proof.
  split; [split; [|split]|]; try reflexivity; try discriminate.
  exists [], []. split; [reflexivity|]. split; [reflexivity|].
  right. split; [|intros x []].
  intros x [<- | []] _. discriminate.
Qed.

(** The request that the generated descriptor [g] answers. *)
Lemma generated_response {number : Type} (w : world number) (url video_id : string)
      (tl : list (Transcript.t number)) (g : Transcript.t number)
      (segs : list (Transcript.segment number)) :
  serves w url video_id tl ->
  Spec.barren false tl ->
  Spec.picks true tl g -> Spec.yields g segs ->
  exists tried,
    get_transcript w url
    = (succeeded (Transcript.language_code g ++ "_generated") (Spec.body segs),
       session w video_id (tried ++ [g]))
    /\ (forall d, In d tried -> Spec.picks false tl d)
    /\ (tried = [] -> forall x, In x tl -> Transcript.is_generated x <> false).
Proof.
  intros Hs Hb Hg Hy.
  rewrite (get_transcript_serves w url video_id tl Hs).
  destruct (first_attempt tl)
    as [(d & s & Hd & Hyd & _) | (st1 & tried & E & F & Hshape)];
    [now elim (Hb d s Hd)|].
  exists tried.
  assert (E2 : suppress st1 (generated_block tl st1)
               = (Build_locals (Some segs)
                    (Some (Transcript.language_code g ++ "_generated")) true,
                  [Fetch g])).
  { rewrite (generated_block_picks tl st1 g Hg). unfold attempt, suppress.
    destruct Hy as [-> _]. reflexivity. }
  rewrite (select_second tl st1 _ _ _ E F E2). cbn [fst snd].
  rewrite respond_generated by apply Hy.
  split; [|split].
  - unfold session. now rewrite map_app.
  - destruct Hshape as [[-> _] | (d & -> & Hd & _)]; [intros d []|].
    now intros d' [<- | []].
  - destruct Hshape as [[_ H] | (d & -> & _)]; [now intros _ | discriminate].
Qed.

(** C3, as the code has it: when the manual group yields nothing and the
    generated descriptor that the rule picks (the first generated "en",
    else the first generated one) returns at least one segment, it is the
    last descriptor fetched and the response reports its language code
    followed by "_generated", which is "en_generated" for English. *)
Theorem generated_language_reported
        {number : Type} (w : world number) (url video_id : string)
        (tl : list (Transcript.t number)) (g : Transcript.t number)
        (segs : list (Transcript.segment number)) :
  serves w url video_id tl ->
  Spec.barren false tl ->
  Spec.picks true tl g ->
  Spec.yields g segs ->
  fst (get_transcript w url)
  = succeeded (Transcript.language_code g ++ "_generated") (Spec.body segs)
  /\ (Transcript.language_code g = "en" ->
      language (fst (get_transcript w url)) = Some "en_generated")
  /\ exists tried,
      snd (get_transcript w url) = session w video_id (tried ++ [g])
      /\ forall d, In d tried -> Spec.picks false tl d.
Proof.
  intros Hs Hb Hg Hy.
  destruct (generated_response w url video_id tl g segs Hs Hb Hg Hy)
    as (tried & E & Ht & _).
  rewrite E. cbn [fst snd]. split; [reflexivity|]. split.
  - intros ->. reflexivity.
  - now exists tried.
Qed.

Lemma generated_language_reported_witness :
  let w := Sample.listing (Return Sample.es_en) in
  let g := Sample.generated "en" (Return Sample.hello) in
  fst (get_transcript w Sample.url)
  = succeeded (Transcript.language_code g ++ "_generated")
              (Spec.body Sample.hello)
  /\ (Transcript.language_code g = "en" ->
      language (fst (get_transcript w Sample.url)) = Some "en_generated")
  /\ exists tried,
      snd (get_transcript w Sample.url) = session w "abc" (tried ++ [g])
      /\ forall d, In d tried -> Spec.picks false Sample.es_en d.
Proof.
  apply (generated_language_reported
           (Sample.listing (Return Sample.es_en)) Sample.url "abc" Sample.es_en
           (Sample.generated "en" (Return Sample.hello)) Sample.hello).
  - apply sample_serves.
  - intros d s Hd. apply (picks_in false) in Hd. destruct Hd as [Hin Hg].
    destruct Hin as [<- | [<- | []]]; discriminate.
  - exists [Sample.generated "es" (Return Sample.hello)], [].
    split; [reflexivity|]. split; [reflexivity|].
    left. split; [reflexivity|].
    intros x [<- | []] _. discriminate.
  - split; [reflexivity | discriminate].
Defined.

(** C3 as stated fails: the only descriptor is a generated "en" one and it
    is fetched, but it returns no segment and no language is reported. *)
Lemma empty_generated_not_reported :
  Spec.barren false Sample.empty_generated_en
  /\ Spec.picks true Sample.empty_generated_en
                (Sample.generated "en" (Return []))
  /\ get_transcript (Sample.listing (Return Sample.empty_generated_en)) Sample.url
     = (failed "no_transcript_available",
        [Print warning; ListTranscripts None "abc";
         Fetch (Sample.generated "en" (Return []))])
  /\ language (fst (get_transcript
                      (Sample.listing (Return Sample.empty_generated_en))
                      Sample.url))
     <> Some "en_generated".
Proof.
  split; [|split; [|split]]; try reflexivity; try discriminate.
  - intros d s Hd. apply (picks_in false) in Hd. destruct Hd as [Hin Hg].
    destruct Hin as [<- | []]. discriminate.
  - exists [], []. split; [reflexivity|]. split; [reflexivity|].
    left. split; [reflexivity | intros x []].
Qed.

(** ** Failures *)

Lemma truthy_video_id (video_id : string) :
  video_id <> "" -> PyStr.truthy video_id = true.
Proof.
  intros N. unfold PyStr.truthy. apply negb_true_iff. now apply String.eqb_neq.
Qed.

(** What a request returns when the listing raises. *)
Lemma get_transcript_raises {number : Type} (w : world number)
      (url video_id : string) (e : exn) :
  extract_video_id url = Some video_id ->
  video_id <> "" ->
  list_transcripts (YouTubeTranscriptApi w (proxy_config w)) video_id = Raise e ->
  get_transcript w url = (handle e, session w video_id []).
Proof.
  intros Eid Nid El. unfold get_transcript. rewrite Eid.
  rewrite (truthy_video_id video_id Nid). cbn [negb]. cbv zeta.
  unfold outer_block. rewrite El. reflexivity.
Qed.

(** C5, as the code has it: a failure of the listing call that is neither
    of the two named signals is answered with success = false and
    fail_reason "other: " followed by the failure's description, and
    nothing is fetched. *)
Theorem listing_failure_reported
        {number : Type} (w : world number) (url video_id : string) (e : exn) :
  extract_video_id url = Some video_id ->
  video_id <> "" ->
  list_transcripts (YouTubeTranscriptApi w (proxy_config w)) video_id = Raise e ->
  (forall msg, e <> TranscriptsDisabled msg) ->
  (forall msg, e <> NoTranscriptFound msg) ->
  get_transcript w url
  = ({| success := false;
        fail_reason := Some ("other: " ++ str e);
        language := None;
        transcript := None |},
     session w video_id []).
Proof.
  intros Eid Nid El Hd Hn.
  rewrite (get_transcript_raises w url video_id e Eid Nid El).
  destruct e as [msg|msg|msg]; [now elim (Hd msg) | now elim (Hn msg) | reflexivity].
Qed.

Lemma listing_failure_reported_witness :
  get_transcript (Sample.listing (Raise Sample.boom)) Sample.url
  = ({| success := false;
        fail_reason := Some ("other: " ++ str Sample.boom);
        language := None;
        transcript := None |},
     session (Sample.listing (Raise Sample.boom)) "abc" []).
Proof.
  apply (listing_failure_reported
           (Sample.listing (Raise Sample.boom)) Sample.url "abc" Sample.boom).
  - reflexivity.
  - discriminate.
  - reflexivity.
  - discriminate.
  - discriminate.
Defined.

(** C5 as stated fails: the failure "boom" raised while fetching the chosen
    descriptor is neither of the two named signals, and the response does
    not carry "other: boom". *)
Lemma fetch_failure_not_reported :
  Transcript.fetch (Sample.manual "en" (Raise Sample.boom)) = Raise Sample.boom
  /\ get_transcript (Sample.listing (Return Sample.failing_en)) Sample.url
     = (failed "no_transcript_available",
        [Print warning; ListTranscripts None "abc";
         Fetch (Sample.manual "en" (Raise Sample.boom))])
  /\ fail_reason (fst (get_transcript (Sample.listing (Return Sample.failing_en))
                                      Sample.url))
     <> Some ("other: " ++ str Sample.boom).
Proof. repeat split; try reflexivity. discriminate. Qed.

(** C6: when the listing signals TranscriptsDisabled the response is
    success = false with fail_reason "transcripts_disabled"; when it signals
    NoTranscriptFound, fail_reason is "no_transcript_found_for_video"; in
    both, language and transcript are null. *)
Theorem listing_signals_reported
        {number : Type} (w : world number) (url video_id msg : string) :
  extract_video_id url = Some video_id ->
  video_id <> "" ->
  (list_transcripts (YouTubeTranscriptApi w (proxy_config w)) video_id
   = Raise (TranscriptsDisabled msg) ->
   fst (get_transcript w url)
   = {| success := false;
        fail_reason := Some "transcripts_disabled";
        language := None;
        transcript := None |})
  /\ (list_transcripts (YouTubeTranscriptApi w (proxy_config w)) video_id
      = Raise (NoTranscriptFound msg) ->
      fst (get_transcript w url)
      = {| success := false;
           fail_reason := Some "no_transcript_found_for_video";
           language := None;
           transcript := None |}).
Proof.
  intros Eid Nid. split; intros El;
    now rewrite (get_transcript_raises w url video_id _ Eid Nid El).
Qed.

Lemma listing_signals_reported_witness :
  fst (get_transcript (Sample.listing (Raise (TranscriptsDisabled "off")))
                      Sample.url)
  = {| success := false;
       fail_reason := Some "transcripts_disabled";
       language := None;
       transcript := None |}.
Proof.
  destruct (listing_signals_reported
              (Sample.listing (Raise (TranscriptsDisabled "off")))
              Sample.url "abc" "off") as [H _].
  - reflexivity.
  - discriminate.
  - apply H. reflexivity.
Defined.

(** C7: when neither group yields a transcript, and so when the list is
    empty, the response is success = false with fail_reason
    "no_transcript_available" and null language and transcript. *)
Theorem no_transcript_available
        {number : Type} (w : world number) (url video_id : string)
        (tl : list (Transcript.t number)) :
  serves w url video_id tl ->
  (Spec.barren false tl -> Spec.barren true tl ->
   fst (get_transcript w url)
   = {| success := false;
        fail_reason := Some "no_transcript_available";
        language := None;
        transcript := None |})
  /\ (tl = [] ->
      get_transcript w url
      = ({| success := false;
            fail_reason := Some "no_transcript_available";
            language := None;
            transcript := None |},
         session w video_id [])).
Proof.
  intros Hs. rewrite (get_transcript_serves w url video_id tl Hs). split.
  - intros Hm Hg.
    destruct (select_cases tl)
      as [(d & s & Hd & Hy & _)
         | [(tried & g & s & Hpg & Hy & _) | (st & tried & E & F & _)]].
    + now elim (Hm d s Hd).
    + now elim (Hg g s Hpg).
    + rewrite E. cbn [fst]. now rewrite respond_falsy.
  - intros ->. reflexivity.
Qed.

Lemma no_transcript_available_witness :
  fst (get_transcript (Sample.listing (Return Sample.failing_en)) Sample.url)
  = {| success := false;
       fail_reason := Some "no_transcript_available";
       language := None;
       transcript := None |}
  /\ get_transcript (Sample.listing (Return [])) Sample.url
     = ({| success := false;
           fail_reason := Some "no_transcript_available";
           language := None;
           transcript := None |},
        session (Sample.listing (Return [])) "abc" []).
Proof.
  split.
  - apply (proj1 (no_transcript_available
                    (Sample.listing (Return Sample.failing_en)) Sample.url "abc"
                    Sample.failing_en (sample_serves Sample.failing_en))).
    + intros d s Hd [E _]. apply (picks_in false) in Hd.
      destruct Hd as [[<- | []] _]. discriminate.
    + intros d s Hd. apply (picks_in true) in Hd.
      destruct Hd as [[<- | []] Hg]. discriminate.
  - apply (proj2 (no_transcript_available
                    (Sample.listing (Return [])) Sample.url "abc"
                    [] (sample_serves []))).
    reflexivity.
Defined.

(** ** The transcript body *)

Lemma last_fetch {number : Type} (w : world number) (video_id : string)
      (fetched : list (Transcript.t number)) (earlier : list (event number))
      (d : Transcript.t number) :
  session w video_id fetched = (earlier ++ [Fetch d])%list ->
  exists before, fetched = (before ++ [d])%list.
Proof.
  unfold session. intros E.
  destruct (exists_last (l := fetched)) as (before & x & ->).
  - intros ->. cbn [map] in E.
    apply app_inj_tail in E. destruct E as [_ E]. discriminate.
  - exists before. rewrite map_app in E. cbn [map] in E.
    rewrite app_comm_cons, app_assoc in E.
    apply app_inj_tail in E. destruct E as [_ E]. now injection E as ->.
Qed.

(** C8, as the code has it: whenever a fetch made in a request returns
    at least one segment, the response is a success whose transcript is
    the texts of those segments, in order, joined by one space, whatever
    their start and duration; two segments "Hello" and "world" give
    "Hello world". *)
Theorem transcript_is_joined_text :
  (forall (number : Type) (w : world number) (url video_id : string)
          (tl : list (Transcript.t number))
          (d : Transcript.t number) (segs : list (Transcript.segment number)),
      serves w url video_id tl ->
      In (Fetch d) (snd (get_transcript w url)) ->
      Transcript.fetch d = Return segs ->
      segs <> [] ->
      success (fst (get_transcript w url)) = true
      /\ transcript (fst (get_transcript w url))
         = Some (PyStr.join " " (map Transcript.text segs)))
  /\ (forall (number : Type) (s : Transcript.segment number),
         PyStr.join " " (map Transcript.text [s]) = Transcript.text s)
  /\ (forall (number : Type) (s s' : Transcript.segment number)
             (l : list (Transcript.segment number)),
         PyStr.join " " (map Transcript.text (s :: s' :: l))
         = Transcript.text s ++ " "
           ++ PyStr.join " " (map Transcript.text (s' :: l)))
  /\ (forall (number : Type) (a b c d : number),
         PyStr.join " " (map Transcript.text
                             [Transcript.Segment "Hello" a b;
                              Transcript.Segment "world" c d])
         = "Hello world").
Proof.
  split; [|repeat split].
  intros number w url video_id tl d segs Hs Hin Ef Ns.
  assert (Hy : Spec.yields d segs) by now split.
  rewrite (get_transcript_serves w url video_id tl Hs) in *.
  cbn [fst snd] in *.
  assert (Hlog : forall fetched,
             snd (select tl) = map Fetch fetched -> In d fetched).
  { intros fetched E. rewrite E in Hin.
    apply in_app_or in Hin. destruct Hin as [Hin | [Hin | Hin]].
    - unfold configure in Hin. destruct (proxy_config w); [destruct Hin|].
      destruct Hin as [Hin | []]. discriminate.
    - discriminate.
    - apply in_map_iff in Hin. destruct Hin as (x & Hx & Hxin).
      now injection Hx as <-. }
  destruct (select_cases tl)
    as [(d0 & s0 & Hd & Hy0 & E)
       | [(tried & g & s0 & Hg & Hy0 & Ht & _ & E) | (st & tried & E & F & Hn)]];
    rewrite E in *; cbn [fst snd] in *.
  - destruct (Hlog [d0] eq_refl) as [<- | []].
    rewrite (yields_unique d0 s0 segs Hy0 Hy).
    rewrite respond_manual by exact Ns. now split.
  - pose proof (Hlog (tried ++ [g])%list eq_refl) as Hd.
    apply in_app_or in Hd. destruct Hd as [Hd | [<- | []]].
    + now elim (proj2 (Ht d Hd) segs).
    + rewrite (yields_unique g s0 segs Hy0 Hy).
      rewrite respond_generated by exact Ns. now split.
  - now elim (Hn d (Hlog tried eq_refl) segs).
Qed.

Lemma transcript_is_joined_text_witness :
  success (fst (get_transcript (Sample.listing (Return Sample.fails_then_en))
                               Sample.url)) = true
  /\ transcript (fst (get_transcript (Sample.listing (Return Sample.fails_then_en))
                                     Sample.url))
     = Some (PyStr.join " " (map Transcript.text Sample.hello)).
Proof.
  apply (proj1 transcript_is_joined_text nat
               (Sample.listing (Return Sample.fails_then_en)) Sample.url "abc"
               Sample.fails_then_en
               (Sample.generated "en" (Return Sample.hello)) Sample.hello).
  - apply sample_serves.
  - right. right. right. now left.
  - reflexivity.
  - discriminate.
Defined.

(** C8 as stated fails: the fetch of the only descriptor succeeds with a
    list of no segment, and the response has no transcript at all instead
    of the join of that list. *)
Lemma empty_fetch_has_no_transcript :
  Transcript.fetch (Sample.manual "de" (Return [])) = Return []
  /\ get_transcript (Sample.listing (Return Sample.empty_de)) Sample.url
     = (failed "no_transcript_available",
        [Print warning; ListTranscripts None "abc";
         Fetch (Sample.manual "de" (Return []))])
  /\ transcript (fst (get_transcript (Sample.listing (Return Sample.empty_de))
                                     Sample.url))
     <> Some (PyStr.join " " (map (Transcript.text (number := nat)) [])).
Proof. repeat split; try reflexivity. discriminate. Qed.

(** ** Suppressed fetch failures *)

(** C9: when fetching the chosen manual descriptor raises, the generated
    group is evaluated next: the chosen generated descriptor is fetched and
    answers the request if it returns segments; if its fetch raises too, or
    if there is no generated descriptor, the response is the failure
    "no_transcript_available".  Once the listing has succeeded, fail_reason
    is either null or "no_transcript_available", whatever the fetches do. *)
Theorem fetch_failures_suppressed
        {number : Type} (w : world number) (url video_id : string)
        (tl : list (Transcript.t number)) :
  serves w url video_id tl ->
  (forall d e,
      Spec.picks false tl d -> Transcript.fetch d = Raise e ->
      (forall g,
          Spec.picks true tl g ->
          snd (get_transcript w url) = session w video_id [d; g]
          /\ (forall segs,
                 Spec.yields g segs ->
                 fst (get_transcript w url)
                 = succeeded (Transcript.language_code g ++ "_generated")
                             (Spec.body segs))
          /\ (forall e',
                 Transcript.fetch g = Raise e' ->
                 fst (get_transcript w url) = failed "no_transcript_available"))
      /\ ((forall x, In x tl -> Transcript.is_generated x <> true) ->
          get_transcript w url
          = (failed "no_transcript_available", session w video_id [d])))
  /\ (forall g e,
         (forall x, In x tl -> Transcript.is_generated x <> false) ->
         Spec.picks true tl g -> Transcript.fetch g = Raise e ->
         get_transcript w url
         = (failed "no_transcript_available", session w video_id [g]))
  /\ (fail_reason (fst (get_transcript w url)) = None
      \/ fail_reason (fst (get_transcript w url))
         = Some "no_transcript_available").
Proof.
  intros Hs. rewrite (get_transcript_serves w url video_id tl Hs).
  cbn [fst snd]. split; [|split].
  - intros d e Hd Ed.
    assert (E1 : suppress st0 (manual_block tl st0) = (st0, [Fetch d])).
    { rewrite (manual_block_picks tl st0 d Hd). unfold attempt, suppress.
      now rewrite Ed. }
    split.
    + intros g Hg.
      pose proof (generated_block_picks tl st0 g Hg) as E2.
      unfold attempt in E2.
      destruct (Transcript.fetch g) as [fetched|e'] eqn:Eg.
      * rewrite (select_second tl st0
                   (Build_locals (Some fetched)
                      (Some (Transcript.language_code g ++ "_generated")) true)
                   [Fetch d] [Fetch g] E1 eq_refl)
          by (unfold suppress; now rewrite E2).
        cbn [fst snd]. split; [reflexivity|]. split.
        -- intros segs [Ey Ny]. rewrite Eg in Ey. injection Ey as ->.
           now rewrite respond_generated.
        -- intros e'' Ee. congruence.
      * rewrite (select_second tl st0 st0 [Fetch d] [Fetch g] E1 eq_refl)
          by (unfold suppress; now rewrite E2).
        cbn [fst snd]. split; [reflexivity|]. split.
        -- intros segs [Ey _]. congruence.
        -- intros _ _. reflexivity.
    + intros Hnone.
      rewrite (select_second tl st0 st0 [Fetch d] [] E1 eq_refl)
        by (rewrite generated_block_empty by exact Hnone; reflexivity).
      reflexivity.
  - intros g e Hnone Hg Eg.
    rewrite (select_second tl st0 st0 [] [Fetch g]).
    + reflexivity.
    + now rewrite manual_block_empty.
    + reflexivity.
    + rewrite (generated_block_picks tl st0 g Hg). unfold attempt, suppress.
      now rewrite Eg.
  - destruct (select_cases tl)
      as [(d0 & s0 & Hd & Hy0 & E)
         | [(tried & g & s0 & Hg & Hy0 & _ & _ & E) | (st & tried & E & F & _)]];
      rewrite E; cbn [fst].
    + rewrite respond_manual by apply Hy0. now left.
    + rewrite respond_generated by apply Hy0. now left.
    + rewrite respond_falsy by exact F. now right.
Qed.

Lemma fetch_failures_suppressed_witness :
  let w := Sample.listing (Return Sample.fails_then_en) in
  let d := Sample.manual "en" (Raise Sample.boom) in
  let g := Sample.generated "en" (Return Sample.hello) in
  snd (get_transcript w Sample.url) = session w "abc" [d; g]
  /\ (forall segs,
         Spec.yields g segs ->
         fst (get_transcript w Sample.url)
         = succeeded (Transcript.language_code g ++ "_generated")
                     (Spec.body segs))
  /\ (forall e',
         Transcript.fetch g = Raise e' ->
         fst (get_transcript w Sample.url) = failed "no_transcript_available").
Proof.
  destruct (fetch_failures_suppressed
              (Sample.listing (Return Sample.fails_then_en)) Sample.url "abc"
              Sample.fails_then_en (sample_serves Sample.fails_then_en))
    as [H _].
  destruct (H (Sample.manual "en" (Raise Sample.boom)) Sample.boom) as [Hg _].
  - exists [], [Sample.generated "en" (Return Sample.hello)].
    split; [reflexivity|]. split; [reflexivity|].
    left. split; [reflexivity | intros x []].
  - reflexivity.
  - apply Hg.
    exists [Sample.manual "en" (Raise Sample.boom)], [].
    split; [reflexivity|]. split; [reflexivity|].
    left. split; [reflexivity|].
    intros x [<- | []]. discriminate.
Defined.

(** ** Empty identifiers *)

Lemma select_log {number : Type} (tl : list (Transcript.t number)) :
  exists fetched, snd (select tl) = map Fetch fetched.
Proof.
  destruct (select_cases tl)
    as [(d0 & s0 & _ & _ & E)
       | [(tried & g & s0 & _ & _ & _ & _ & E) | (st & tried & E & _)]];
    rewrite E; eexists; reflexivity.
Qed.

(** C10: a URL whose captured identifier is the empty string, such as
    "https://www.youtube.com/watch?v=", is answered like a URL that matches
    no pattern, with "invalid_url" and without any effect; and no listing
    request is ever made for an empty identifier. *)
Theorem empty_identifier_is_invalid
        {number : Type} (w : world number) (url : string) :
  (extract_video_id url = Some "" ->
   get_transcript w url = (failed "invalid_url", []))
  /\ (extract_video_id url = None ->
      get_transcript w url = (failed "invalid_url", []))
  /\ (forall cfg video_id,
         In (ListTranscripts cfg video_id) (snd (get_transcript w url)) ->
         video_id <> "")
  /\ extract_video_id "https://www.youtube.com/watch?v=" = Some ""
  /\ get_transcript w "https://www.youtube.com/watch?v="
     = ({| success := false;
           fail_reason := Some "invalid_url";
           language := None;
           transcript := None |}, []).
Proof.
  split; [|split; [|split; [|split]]]; try reflexivity.
  - intros E. unfold get_transcript. now rewrite E.
  - intros E. unfold get_transcript. now rewrite E.
  - intros cfg video_id. unfold get_transcript.
    destruct (extract_video_id url) as [v|]; [|intros []].
    destruct (PyStr.truthy v) eqn:T; cbn [negb]; [|intros []].
    cbv zeta. unfold outer_block.
    assert (Hlog : exists fetched,
               snd (match list_transcripts (YouTubeTranscriptApi w (proxy_config w)) v with
                    | Return transcript_list =>
                        let (st, log) := select transcript_list in (respond st, log)
                    | Raise e => (Raise e, [])
                    end) = map (Fetch (number := number)) fetched).
    { destruct (list_transcripts _ v) as [tl|e]; [|now exists []].
      destruct (select_log tl) as (fetched & E). exists fetched.
      destruct (select tl). exact E. }
    destruct Hlog as (fetched & Hlog).
    destruct (match list_transcripts _ v with Return _ => _ | Raise _ => _ end)
      as [result log].
    cbn [snd] in *. subst log. intros Hin.
    apply in_app_or in Hin. destruct Hin as [Hin | [Hin | Hin]].
    + unfold configure in Hin. destruct (proxy_config w); [destruct Hin|].
      destruct Hin as [Hin | []]. discriminate.
    + injection Hin as _ <-. intros ->. discriminate.
    + apply in_map_iff in Hin. destruct Hin as (x & Hx & _). discriminate.
Qed.

Lemma empty_identifier_is_invalid_witness :
  get_transcript (Sample.listing (Return Sample.en_en))
                 "https://www.youtube.com/watch?v="
  = (failed "invalid_url", [])
  /\ "abc" <> "".
Proof.
  destruct (empty_identifier_is_invalid
              (Sample.listing (Return Sample.en_en))
              "https://www.youtube.com/watch?v=") as (H & _ & _).
  split; [apply H; reflexivity|].
  destruct (empty_identifier_is_invalid
              (Sample.listing (Return Sample.en_en)) Sample.url) as (_ & _ & H' & _).
  apply (H' None "abc"). right. now left.
Defined.

(** * Further properties of the URL resolver *)

Lemma star_ext {R : Type} (p : ascii -> bool) (k k' : string -> option R)
      (s : string) :
  (forall s', k s' = k' s') -> Re.star p s k = Re.star p s k'.
Proof.
  intros H. induction s as [|c s IH]; simpl; [apply H|].
  destruct (p c); [|apply H]. rewrite IH. now rewrite H.
Qed.

Lemma run_ext (r : Re.regex) :
  forall s g k k',
    (forall s' g', k s' g' = k' s' g') -> Re.run r s g k = Re.run r s g k'.
Proof.
  induction r as [t|c|r1 IH1 r2 IH2|r1 IH1 r2 IH2|c|r IH];
    intros s g k k' H; cbn [Re.run].
  - destruct (Re.lit t s); [apply H | reflexivity].
  - destruct s as [|a s]; [reflexivity|].
    destruct (Re.accepts c a); [apply H | reflexivity].
  - apply IH1. intros s' g'. now apply IH2.
  - rewrite (IH1 s g k k' H). now rewrite (IH2 s g k k' H).
  - apply star_ext. intros s'. apply H.
  - apply IH. intros s' g'. apply H.
Qed.

(** Matching a lead and then the common ending is matching the lead and
    capturing the separator-free text after it. *)
Lemma match_at_lead (lead : Re.regex) (s : string) :
  Re.match_at (Re.Cat lead capture_tail) s
  = Re.run lead s None
           (fun s' _ => Some (Re.MatchObject (Some (Spec.span s')))).
Proof.
  unfold Re.match_at. cbn [Re.run]. apply run_ext.
  intros s' g'. apply run_capture_tail.
Qed.

Lemma search_miss (r : Re.regex) (c : ascii) (s : string) :
  Re.match_at r (String c s) = None ->
  Re.search r (String c s) = Re.search r s.
Proof. intros H. cbn [Re.search]. now rewrite H. Qed.

Lemma search_hit (r : Re.regex) (s : string) (m : Re.match_object) :
  Re.match_at r s = Some m -> Re.search r s = Some m.
Proof. intros H. destruct s; cbn [Re.search]; now rewrite H. Qed.

Lemma span_identifier (id post : string) :
  (forall c, In c (list_ascii_of_string id) -> ~ In c separators) ->
  (post = "" \/ exists c post', post = String c post' /\ In c separators) ->
  Spec.span (id ++ post) = id.
Proof.
  intros Hid Hpost. induction id as [|a id IH]; cbn [append].
  - destruct Hpost as [-> | (c & post' & -> & Hc)]; [reflexivity|].
    cbn [Spec.span]. apply is_separator_spec in Hc. now rewrite Hc.
  - cbn [Spec.span]. destruct (Spec.is_separator a) eqn:E.
    + apply is_separator_spec in E. elim (Hid a); [now left | exact E].
    + rewrite IH; [reflexivity|]. intros c Hc. apply Hid. now right.
Qed.

(** Scanning a URL whose beginning is known: positions where the pattern
    fails on the known characters are passed over, then the lead is found. *)
Ltac scan_url :=
  cbn [append];
  repeat (rewrite search_miss by (rewrite match_at_lead; reflexivity));
  erewrite search_hit by (rewrite match_at_lead; reflexivity).

(** X1: for the five URL shapes that the first pattern serves (watch,
    youtu.be, embed, /v/ and /e/), the resolver returns exactly the
    identifier that follows the lead, for every identifier without "#", "&"
    and "?" and whatever follows it after one of these characters. *)
Theorem recognized_url_shapes (id post : string) :
  (forall c, In c (list_ascii_of_string id) -> ~ In c separators) ->
  (post = "" \/ exists c post', post = String c post' /\ In c separators) ->
  extract_video_id ("https://www.youtube.com/watch?v=" ++ id ++ post) = Some id
  /\ extract_video_id ("https://youtu.be/" ++ id ++ post) = Some id
  /\ extract_video_id ("https://www.youtube.com/embed/" ++ id ++ post) = Some id
  /\ extract_video_id ("https://www.youtube.com/v/" ++ id ++ post) = Some id
  /\ extract_video_id ("https://www.youtube.com/e/" ++ id ++ post) = Some id.
Proof.
  intros Hid Hpost. pose proof (span_identifier id post Hid Hpost) as E.
  unfold extract_video_id, patterns. cbn [first_match].
  repeat split; scan_url; cbn [Re.group1]; now rewrite E.
Qed.

Lemma recognized_url_shapes_witness :
  extract_video_id ("https://www.youtube.com/watch?v=" ++ "dQw4w9WgXcQ" ++ "&t=3")
  = Some "dQw4w9WgXcQ"
  /\ extract_video_id ("https://youtu.be/" ++ "dQw4w9WgXcQ" ++ "&t=3")
     = Some "dQw4w9WgXcQ"
  /\ extract_video_id ("https://www.youtube.com/embed/" ++ "dQw4w9WgXcQ" ++ "&t=3")
     = Some "dQw4w9WgXcQ"
  /\ extract_video_id ("https://www.youtube.com/v/" ++ "dQw4w9WgXcQ" ++ "&t=3")
     = Some "dQw4w9WgXcQ"
  /\ extract_video_id ("https://www.youtube.com/e/" ++ "dQw4w9WgXcQ" ++ "&t=3")
     = Some "dQw4w9WgXcQ".
Proof.
  apply (recognized_url_shapes "dQw4w9WgXcQ" "&t=3").
  - intros c Hc Hs. cbn in Hc, Hs.
    repeat (destruct Hc as [<- | Hc];
            [destruct Hs as [Hs | [Hs | [Hs | []]]]; discriminate|]).
    exact Hc.
  - right. exists "&"%char, "t=3". split; [reflexivity|]. right. now left.
Defined.

(** X2: a shorts URL resolves to the identifier that follows "/shorts/"
    whenever the first pattern matches nowhere in the URL, and a live URL
    to the one that follows "/live/" whenever the first two patterns match
    nowhere: the later patterns are reached only then. *)
Theorem shorts_and_live_shapes (id post : string) :
  (forall c, In c (list_ascii_of_string id) -> ~ In c separators) ->
  (post = "" \/ exists c post', post = String c post' /\ In c separators) ->
  (Re.search (rule 0) ("https://www.youtube.com/shorts/" ++ id ++ post) = None ->
   extract_video_id ("https://www.youtube.com/shorts/" ++ id ++ post) = Some id)
  /\ (Re.search (rule 0) ("https://www.youtube.com/live/" ++ id ++ post) = None ->
      Re.search (rule 1) ("https://www.youtube.com/live/" ++ id ++ post) = None ->
      extract_video_id ("https://www.youtube.com/live/" ++ id ++ post) = Some id).
Proof.
  intros Hid Hpost. pose proof (span_identifier id post Hid Hpost) as E.
  unfold extract_video_id, rule, patterns. cbn [first_match nth].
  split.
  - intros ->. scan_url. cbn [Re.group1]. now rewrite E.
  - intros -> ->. scan_url. cbn [Re.group1]. now rewrite E.
Qed.

Lemma shorts_and_live_shapes_witness :
  extract_video_id ("https://www.youtube.com/shorts/" ++ "abc" ++ "?x") = Some "abc"
  /\ extract_video_id ("https://www.youtube.com/live/" ++ "abc" ++ "?x") = Some "abc".
Proof.
  assert (Hid : forall c, In c (list_ascii_of_string "abc") -> ~ In c separators).
  { intros c Hc Hs. cbn in Hc, Hs.
    repeat (destruct Hc as [<- | Hc];
            [destruct Hs as [Hs | [Hs | [Hs | []]]]; discriminate|]).
    exact Hc. }
  assert (Hpost : "?x" = ""
                  \/ exists c post', "?x" = String c post' /\ In c separators).
  { right. exists "?"%char, "x". split; [reflexivity|]. right. right. now left. }
  split.
  - apply (proj1 (shorts_and_live_shapes "abc" "?x" Hid Hpost)). reflexivity.
  - apply (proj2 (shorts_and_live_shapes "abc" "?x" Hid Hpost)); reflexivity.
Defined.

Lemma chars_append (a b : string) :
  list_ascii_of_string (a ++ b)
  = (list_ascii_of_string a ++ list_ascii_of_string b)%list.
Proof. induction a as [|x a IH]; simpl; [reflexivity | now rewrite IH]. Qed.

Lemma lit_char (l s s' : string) (c : ascii) :
  Re.lit l s = Some s' -> In c (list_ascii_of_string l) ->
  In c (list_ascii_of_string s).
Proof.
  intros H Hc. apply lit_append in H. subst s.
  rewrite chars_append. apply in_or_app. now left.
Qed.

Lemma lit_tail (l s s' : string) (c : ascii) :
  Re.lit l s = Some s' -> In c (list_ascii_of_string s') ->
  In c (list_ascii_of_string s).
Proof.
  intros H Hc. apply lit_append in H. subst s.
  rewrite chars_append. apply in_or_app. now right.
Qed.

(** Every lead of the first pattern needs a "/" or a "=". *)
Lemma lead_needs_mark (s : string) (m : Re.match_object)
      (k : string -> option string -> option Re.match_object) :
  Re.run (Re.alts leads) s None k = Some m ->
  In "/"%char (list_ascii_of_string s) \/ In "="%char (list_ascii_of_string s).
Proof.
  unfold leads, youtu_be. cbn [Re.alts Re.run].
  destruct (Re.lit "v=" s) eqn:E1.
  { intros _. right. apply (lit_char _ _ _ _ E1). cbn. tauto. }
  destruct (Re.lit "/videos/" s) eqn:E2.
  { intros _. left. apply (lit_char _ _ _ _ E2). cbn. tauto. }
  destruct (Re.lit "embed/" s) eqn:E3.
  { intros _. left. apply (lit_char _ _ _ _ E3). cbn. tauto. }
  destruct (Re.lit "youtu" s) as [s1|] eqn:E4.
  { destruct s1 as [|a s2].
    - destruct (Re.lit "/v/" s) eqn:E5.
      { intros _. left. apply (lit_char _ _ _ _ E5). cbn. tauto. }
      apply lit_append in E4. subst s. cbn. discriminate.
    - destruct (Re.accepts Re.Any a);
        [destruct (Re.lit "be/" s2) as [s3|] eqn:E6|].
      + intros _. left. apply (lit_tail _ _ _ _ E4). right.
        apply (lit_char _ _ _ _ E6). cbn. tauto.
      + apply lit_append in E4. subst s. cbn. discriminate.
      + apply lit_append in E4. subst s. cbn. discriminate. }
  destruct (Re.lit "/v/" s) eqn:E5.
  { intros _. left. apply (lit_char _ _ _ _ E5). cbn. tauto. }
  destruct (Re.lit "/e/" s) eqn:E6.
  { intros _. left. apply (lit_char _ _ _ _ E6). cbn. tauto. }
  destruct (Re.lit "watch?v=" s) eqn:E7.
  { intros _. right. apply (lit_char _ _ _ _ E7). cbn. tauto. }
  destruct (Re.lit "&v=" s) eqn:E8.
  { intros _. right. apply (lit_char _ _ _ _ E8). cbn. tauto. }
  discriminate.
Qed.

Lemma youtube_com_needs_mark (path s : string) (m : Re.match_object)
      (k : string -> option string -> option Re.match_object) :
  In "/"%char (list_ascii_of_string path) ->
  Re.run (youtube_com path) s None k = Some m ->
  In "/"%char (list_ascii_of_string s).
Proof.
  intros Hp. unfold youtube_com. cbn [Re.run].
  destruct (Re.lit "youtube" s) as [s1|] eqn:E1; [|discriminate].
  destruct s1 as [|a s2]; [discriminate|].
  destruct (Re.accepts Re.Any a); [|discriminate].
  destruct (Re.lit ("com" ++ path) s2) as [s3|] eqn:E2; [|discriminate].
  intros _. apply (lit_tail _ _ _ _ E1). right.
  apply (lit_char _ _ _ _ E2). rewrite chars_append.
  apply in_or_app. now right.
Qed.

(** X3: a string without "/" and without "=" matches no pattern: the
    resolver returns [None] for it. *)
Theorem unmarked_string_rejected (url : string) :
  (forall c, In c (list_ascii_of_string url) -> c <> "/"%char /\ c <> "="%char) ->
  extract_video_id url = None.
Proof.
  intros H.
  assert (Hsub : forall pre t c,
             url = pre ++ t -> In c (list_ascii_of_string t) ->
             c <> "/"%char /\ c <> "="%char).
  { intros pre t c -> Hc. apply H. rewrite chars_append.
    apply in_or_app. now right. }
  unfold extract_video_id, patterns. cbn [first_match].
  assert (Re.search (Re.Cat (Re.alts leads) capture_tail) url = None) as ->.
  { apply search_none. intros pre t Ht. rewrite match_at_lead.
    destruct (Re.run (Re.alts leads) t None _) as [m|] eqn:Em; [|reflexivity].
    apply lead_needs_mark in Em.
    destruct Em as [Hc | Hc]; destruct (Hsub pre t _ Ht Hc); congruence. }
  assert (Re.search (Re.Cat (youtube_com "/shorts/") capture_tail) url = None) as ->.
  { apply search_none. intros pre t Ht. rewrite match_at_lead.
    destruct (Re.run (youtube_com "/shorts/") t None _) as [m|] eqn:Em;
      [|reflexivity].
    apply youtube_com_needs_mark in Em; [|cbn; tauto].
    destruct (Hsub pre t _ Ht Em); congruence. }
  assert (Re.search (Re.Cat (youtube_com "/live/") capture_tail) url = None) as ->.
  { apply search_none. intros pre t Ht. rewrite match_at_lead.
    destruct (Re.run (youtube_com "/live/") t None _) as [m|] eqn:Em;
      [|reflexivity].
    apply youtube_com_needs_mark in Em; [|cbn; tauto].
    destruct (Hsub pre t _ Ht Em); congruence. }
  reflexivity.
Qed.

Lemma unmarked_string_rejected_witness : extract_video_id "not a url" = None.
Proof.
  apply unmarked_string_rejected. intros c Hc. cbn in Hc.
  repeat (destruct Hc as [<- | Hc]; [split; discriminate|]).
  destruct Hc.
Defined.

(** X4: a string that contains one of the literal leads "v=", "/videos/",
    "embed/", "/v/" or "/e/" anywhere, or "youtu", one character other than
    a newline and "be/", always resolves to an identifier, whatever
    surrounds the lead. *)
Theorem embedded_lead_resolves (pre post : string) :
  (forall lead,
      In lead ["v="; "/videos/"; "embed/"; "/v/"; "/e/"] ->
      extract_video_id (pre ++ lead ++ post) <> None)
  /\ (forall c,
         c <> Re.newline ->
         extract_video_id (pre ++ "youtu" ++ String c ("be/" ++ post)) <> None).
Proof.
  assert (Hfound : forall t,
             Re.match_at (Re.Cat (Re.alts leads) capture_tail) t <> None ->
             extract_video_id (pre ++ t) <> None).
  { intros t Ht. unfold extract_video_id, patterns. cbn [first_match].
    destruct (Re.search (Re.Cat (Re.alts leads) capture_tail) (pre ++ t))
      as [m|] eqn:E.
    - destruct (search_capture _ _ _ E) as (? & ? & _ & ->). discriminate.
    - elim Ht. exact (proj1 (search_none _ _) E pre t eq_refl). }
  split.
  - intros lead Hl. apply Hfound. rewrite match_at_lead.
    cbn [In] in Hl.
    destruct Hl as [<- | [<- | [<- | [<- | [<- | []]]]]]; discriminate.
  - intros c Hc. apply Hfound. rewrite match_at_lead.
    unfold leads, youtu_be. cbn [Re.alts Re.run Re.lit append].
    cbn. unfold Re.accepts.
    destruct (Ascii.eqb c Re.newline) eqn:E;
      [apply Ascii.eqb_eq in E; contradiction|].
    cbn. discriminate.
Qed.

Lemma embedded_lead_resolves_witness :
  extract_video_id ("see " ++ "/v/" ++ "abc now") <> None
  /\ extract_video_id ("see " ++ "youtu" ++ String "x" ("be/" ++ "abc now")) <> None.
Proof.
  split.
  - apply (proj1 (embedded_lead_resolves "see " "abc now") "/v/").
    right. right. right. now left.
  - apply (proj2 (embedded_lead_resolves "see " "abc now") "x"%char).
    discriminate.
Defined.

(** * Further properties of the endpoint *)

(** X5: every response has one of two shapes: a success with a language
    and a transcript and no fail_reason, or a failure with null language and
    transcript whose fail_reason is "invalid_url", "transcripts_disabled",
    "no_transcript_found_for_video", "no_transcript_available" or "other: "
    followed by the description of the failure of the listing. *)
Theorem response_shape {number : Type} (w : world number) (url : string) :
  (exists final_language_code transcript_text,
      fst (get_transcript w url)
      = {| success := true;
           fail_reason := None;
           language := Some final_language_code;
           transcript := Some transcript_text |})
  \/ (exists reason,
         fst (get_transcript w url)
         = {| success := false;
              fail_reason := Some reason;
              language := None;
              transcript := None |}
         /\ (reason = "invalid_url"
             \/ reason = "transcripts_disabled"
             \/ reason = "no_transcript_found_for_video"
             \/ reason = "no_transcript_available"
             \/ exists video_id msg,
                 reason = "other: " ++ msg
                 /\ list_transcripts (YouTubeTranscriptApi w (proxy_config w))
                                     video_id
                    = Raise (OtherException msg))).
Proof.
  destruct (extract_video_id url) as [video_id|] eqn:Eid.
  - destruct (string_dec video_id "") as [-> | Nid].
    + right. exists "invalid_url". unfold get_transcript. rewrite Eid.
      split; [reflexivity | now left].
    + destruct (list_transcripts (YouTubeTranscriptApi w (proxy_config w)) video_id)
        as [tl|e] eqn:El.
      * rewrite (get_transcript_serves w url video_id tl
                   (conj Eid (conj Nid El))).
        cbn [fst].
        destruct (select_cases tl)
          as [(d0 & s0 & _ & Hy0 & E)
             | [(tried & g & s0 & _ & Hy0 & _ & _ & E) | (st & tried & E & F & _)]];
          rewrite E; cbn [fst].
        -- left. rewrite respond_manual by apply Hy0.
           eexists; eexists; reflexivity.
        -- left. rewrite respond_generated by apply Hy0.
           eexists; eexists; reflexivity.
        -- right. rewrite respond_falsy by exact F.
           exists "no_transcript_available". split; [reflexivity | tauto].
      * rewrite (get_transcript_raises w url video_id e Eid Nid El).
        right. destruct e as [msg|msg|msg]; cbn [fst handle str].
        -- exists "transcripts_disabled". split; [reflexivity | tauto].
        -- exists "no_transcript_found_for_video". split; [reflexivity | tauto].
        -- exists ("other: " ++ msg). split; [reflexivity|].
           do 4 right. now exists video_id, msg.
  - right. exists "invalid_url". unfold get_transcript. rewrite Eid.
    split; [reflexivity | now left].
Qed.

Lemma select_fetched {number : Type} (tl : list (Transcript.t number)) :
  exists fetched,
    snd (select tl) = map Fetch fetched
    /\ (fetched = []
        \/ (exists d, fetched = [d] /\ In d tl)
        \/ exists m g,
            fetched = [m; g]
            /\ Spec.picks false tl m /\ Spec.picks true tl g
            /\ forall s, ~ Spec.yields m s).
Proof.
  destruct (first_attempt tl)
    as [(d & segs & Hd & Hy & E) | (st1 & tried & E & F & Hshape)].
  - exists [d]. rewrite (select_first tl _ _ E (truthy_yielded d segs Hy)).
    split; [reflexivity|]. right; left. exists d.
    split; [reflexivity | now apply (picks_in false)].
  - destruct (second_attempt tl st1 F)
      as [(g & segs & Hg & Hy & E2) | (st2 & tried2 & E2 & F2 & Hshape2)].
    + exists (tried ++ [g])%list.
      rewrite (select_second tl st1 _ _ _ E F E2). cbn [snd].
      split; [now rewrite map_app|].
      destruct Hshape as [[-> _] | (d & -> & Hd & Hn & _)].
      * right; left. exists g. split; [reflexivity | now apply (picks_in true)].
      * right; right. now exists d, g.
    + exists (tried ++ tried2)%list.
      rewrite (select_second tl st1 _ _ _ E F E2). cbn [snd].
      split; [now rewrite map_app|].
      destruct Hshape as [[-> _] | (d & -> & Hd & Hn & _)];
        destruct Hshape2 as [[-> _] | (g & -> & Hg & _)]; cbn [app].
      * now left.
      * right; left. exists g. split; [reflexivity | now apply (picks_in true)].
      * right; left. exists d. split; [reflexivity | now apply (picks_in false)].
      * right; right. now exists d, g.
Qed.

(** X6: a request either has no effect at all, or makes exactly one
    listing call, for the non-empty identifier extracted from the URL,
    followed by at most two fetches of descriptors of the returned list; a
    second fetch is made only after a manual descriptor that raised or
    returned no segment, and it is the fetch of a generated descriptor. *)
Theorem service_calls {number : Type} (w : world number) (url : string) :
  snd (get_transcript w url) = []
  \/ exists video_id fetched,
      extract_video_id url = Some video_id
      /\ video_id <> ""
      /\ snd (get_transcript w url) = session w video_id fetched
      /\ List.length fetched <= 2
      /\ (forall d, In d fetched ->
                    exists tl,
                      list_transcripts (YouTubeTranscriptApi w (proxy_config w))
                                       video_id = Return tl
                      /\ In d tl)
      /\ (forall m g, fetched = [m; g] ->
                      Transcript.is_generated m = false
                      /\ Transcript.is_generated g = true
                      /\ forall s, ~ Spec.yields m s).
Proof.
  destruct (extract_video_id url) as [video_id|] eqn:Eid;
    [|left; unfold get_transcript; now rewrite Eid].
  destruct (string_dec video_id "") as [-> | Nid];
    [left; unfold get_transcript; now rewrite Eid|].
  right. exists video_id.
  destruct (list_transcripts (YouTubeTranscriptApi w (proxy_config w)) video_id)
    as [tl|e] eqn:El.
  - rewrite (get_transcript_serves w url video_id tl (conj Eid (conj Nid El))).
    cbn [snd].
    destruct (select_fetched tl) as (fetched & -> & Hshape). exists fetched.
    split; [reflexivity|]. split; [exact Nid|]. split; [reflexivity|].
    destruct Hshape as [-> | [(d & -> & Hd) | (m & g & -> & Hm & Hg & Hn)]].
    + split; [cbn; lia|]. split; [intros d []|]. intros m g Hmg. discriminate.
    + split; [cbn; lia|]. split.
      * intros d' [<- | []]. now exists tl.
      * intros m g Hmg. discriminate.
    + split; [cbn; lia|]. split.
      * intros d' [<- | [<- | []]]; exists tl; split; try reflexivity.
        -- now apply (picks_in false).
        -- now apply (picks_in true).
      * intros m' g' Hmg. injection Hmg as <- <-.
        split; [now apply (picks_in false) in Hm|].
        split; [now apply (picks_in true) in Hg | exact Hn].
  - rewrite (get_transcript_raises w url video_id e Eid Nid El). exists [].
    split; [reflexivity|]. split; [exact Nid|]. split; [reflexivity|].
    split; [cbn; lia|]. split; [intros d []|]. intros m g Hmg. discriminate.
Qed.

(** X7: for a URL with a non-empty identifier, the listing is made
    through the proxy, with exactly the two credentials of the environment
    and without any warning, when WEBSHARE_USERNAME and WEBSHARE_PASSWORD
    are both set and non-empty; when either is unset or empty the warning is
    printed once, before the listing, and the listing is made without
    proxy. *)
Theorem proxy_credentials {number : Type} (w : world number)
        (url video_id : string) :
  extract_video_id url = Some video_id ->
  video_id <> "" ->
  (forall username password,
      getenv w "WEBSHARE_USERNAME" = Some username ->
      getenv w "WEBSHARE_PASSWORD" = Some password ->
      username <> "" -> password <> "" ->
      exists fetched,
        snd (get_transcript w url)
        = ListTranscripts
            (Some {| proxy_username := username; proxy_password := password |})
            video_id
            :: map Fetch fetched)
  /\ (getenv w "WEBSHARE_USERNAME" = None
      \/ getenv w "WEBSHARE_USERNAME" = Some ""
      \/ getenv w "WEBSHARE_PASSWORD" = None
      \/ getenv w "WEBSHARE_PASSWORD" = Some "" ->
      exists fetched,
        snd (get_transcript w url)
        = Print warning :: ListTranscripts None video_id :: map Fetch fetched).
Proof.
  intros Eid Nid.
  assert (Hlog : exists fetched,
             snd (get_transcript w url) = session w video_id fetched).
  { destruct (list_transcripts (YouTubeTranscriptApi w (proxy_config w)) video_id)
      as [tl|e] eqn:El.
    - rewrite (get_transcript_serves w url video_id tl (conj Eid (conj Nid El))).
      destruct (select_fetched tl) as (fetched & E & _). exists fetched.
      cbn [snd]. now rewrite E.
    - rewrite (get_transcript_raises w url video_id e Eid Nid El). now exists []. }
  destruct Hlog as (fetched & ->). unfold session, configure, proxy_config.
  split.
  - intros username password -> -> Nu Np.
    rewrite (truthy_video_id username Nu), (truthy_video_id password Np).
    now exists fetched.
  - intros H. exists fetched.
    destruct (getenv w "WEBSHARE_USERNAME") as [username|];
      [|reflexivity].
    destruct (getenv w "WEBSHARE_PASSWORD") as [password|];
      [|reflexivity].
    destruct H as [H | [H | [H | H]]]; try discriminate;
      injection H as ->; cbn [PyStr.truthy String.eqb negb andb];
      [reflexivity | now rewrite andb_false_r].
Qed.

Lemma success_fields {number : Type} (w : world number) (url video_id : string)
      (tl : list (Transcript.t number)) :
  serves w url video_id tl ->
  (exists d segs fetched,
      Spec.yields d segs
      /\ snd (get_transcript w url) = session w video_id (fetched ++ [d])
      /\ success (fst (get_transcript w url)) = true
      /\ transcript (fst (get_transcript w url)) = Some (Spec.body segs))
  \/ (success (fst (get_transcript w url)) = false
      /\ exists fetched,
          snd (get_transcript w url) = session w video_id fetched
          /\ forall d, In d fetched -> forall s, ~ Spec.yields d s).
Proof.
  intros Hs. rewrite (get_transcript_serves w url video_id tl Hs). cbn [fst snd].
  destruct (select_cases tl)
    as [(d0 & s0 & _ & Hy0 & E)
       | [(tried & g & s0 & _ & Hy0 & _ & _ & E) | (st & tried & E & F & Hn)]];
    rewrite E; cbn [fst snd].
  - left. exists d0, s0, []. rewrite respond_manual by apply Hy0.
    split; [exact Hy0|]. repeat split.
  - left. exists g, s0, tried. rewrite respond_generated by apply Hy0.
    split; [exact Hy0|]. repeat split.
  - right. rewrite respond_falsy by exact F. split; [reflexivity|].
    now exists tried.
Qed.

(** X8: once the listing has succeeded, the response is a success exactly
    when the last descriptor fetched returned at least one segment; every
    failure comes with a trace in which no fetch did. *)
Theorem success_iff_last_fetch_yields
        {number : Type} (w : world number) (url video_id : string)
        (tl : list (Transcript.t number)) :
  serves w url video_id tl ->
  (success (fst (get_transcript w url)) = true <->
   exists earlier d segs,
     snd (get_transcript w url) = (earlier ++ [Fetch d])%list
     /\ Spec.yields d segs)
  /\ (success (fst (get_transcript w url)) = false <->
      forall d, In (Fetch d) (snd (get_transcript w url)) ->
                forall s, ~ Spec.yields d s).
Proof.
  intros Hs.
  assert (Hin : forall fetched (d : Transcript.t number),
             In (Fetch d) (session w video_id fetched) -> In d fetched).
  { intros fetched d Hin. unfold session in Hin.
    apply in_app_or in Hin. destruct Hin as [Hin | [Hin | Hin]].
    - unfold configure in Hin. destruct (proxy_config w); [destruct Hin|].
      destruct Hin as [Hin | []]. discriminate.
    - discriminate.
    - apply in_map_iff in Hin. destruct Hin as (x & Hx & Hxin).
      now injection Hx as <-. }
  destruct (success_fields w url video_id tl Hs)
    as [(d & segs & fetched & Hy & Elog & Es & _) | (Es & fetched & Elog & Hn)];
    rewrite Es, Elog.
  - split; split.
    + intros _. exists (configure w ++ ListTranscripts (proxy_config w) video_id
                                  :: map Fetch fetched)%list, d, segs.
      split; [|exact Hy]. unfold session. rewrite map_app.
      cbn [map]. now rewrite app_comm_cons, app_assoc.
    + reflexivity.
    + discriminate.
    + intros H. elim (H d) with segs; [|exact Hy].
      unfold session. apply in_or_app. right. right.
      rewrite map_app. apply in_or_app. right. now left.
  - split; split.
    + discriminate.
    + intros (earlier & d & segs & E & Hy). exfalso.
      apply last_fetch in E. destruct E as (before & ->).
      elim (Hn d) with segs; [|exact Hy]. apply in_or_app. right. now left.
    + intros _ d Hd. apply Hn. now apply Hin.
    + reflexivity.
Qed.

Lemma proxy_credentials_witness :
  (exists fetched,
      snd (get_transcript (Sample.proxied (Return Sample.fr_en)) Sample.url)
      = ListTranscripts
          (Some {| proxy_username := "user"; proxy_password := "secret" |}) "abc"
          :: map Fetch fetched)
  /\ exists fetched,
      snd (get_transcript (Sample.listing (Return Sample.fr_en)) Sample.url)
      = Print warning :: ListTranscripts None "abc" :: map Fetch fetched.
Proof.
  split.
  - apply (proj1 (proxy_credentials (Sample.proxied (Return Sample.fr_en))
                                    Sample.url "abc" eq_refl
                                    ltac:(discriminate)));
      try reflexivity; discriminate.
  - apply (proj2 (proxy_credentials (Sample.listing (Return Sample.fr_en))
                                    Sample.url "abc" eq_refl
                                    ltac:(discriminate))).
    now left.
Defined.

Lemma success_iff_last_fetch_yields_witness :
  (success (fst (get_transcript (Sample.listing (Return Sample.fr_en)) Sample.url))
   = true <->
   exists earlier d segs,
     snd (get_transcript (Sample.listing (Return Sample.fr_en)) Sample.url)
     = (earlier ++ [Fetch d])%list
     /\ Spec.yields d segs)
  /\ (success (fst (get_transcript (Sample.listing (Return Sample.fr_en))
                                   Sample.url)) = false <->
      forall d,
        In (Fetch d)
           (snd (get_transcript (Sample.listing (Return Sample.fr_en)) Sample.url)) ->
        forall s, ~ Spec.yields d s).
Proof.
  apply (success_iff_last_fetch_yields
           (Sample.listing (Return Sample.fr_en)) Sample.url "abc" Sample.fr_en).
  apply sample_serves.
Defined.

(** X9: the locals that the selection leaves never make the response
    code raise: whenever found_transcript is truthy, language_code is set,
    and when is_generated is true it already ends in "_generated", so the
    suffix of line 127 is never appended a second time. *)
Theorem selected_locals_consistent {number : Type}
        (tl : list (Transcript.t number)) :
  (exists r, respond (fst (select tl)) = Return r)
  /\ (truthy (found_transcript (fst (select tl))) = true ->
      exists code,
        language_code (fst (select tl)) = Some code
        /\ (is_generated (fst (select tl)) = true ->
            PyStr.endswith code "_generated" = true)).
Proof.
  destruct (select_cases tl)
    as [(d0 & s0 & _ & Hy0 & E)
       | [(tried & g & s0 & _ & Hy0 & _ & _ & E) | (st & tried & E & F & _)]];
    rewrite E; cbn [fst].
  - split.
    + rewrite respond_manual by apply Hy0. eexists; reflexivity.
    + intros _. eexists. split; [reflexivity|]. discriminate.
  - split.
    + rewrite respond_generated by apply Hy0. eexists; reflexivity.
    + intros _. eexists. split; [reflexivity|]. intros _.
      apply endswith_append.
  - split.
    + rewrite respond_falsy by exact F. eexists; reflexivity.
    + rewrite F. discriminate.
Qed.

Lemma selected_locals_consistent_witness :
  exists code,
    language_code (fst (select Sample.es_en)) = Some code
    /\ (is_generated (fst (select Sample.es_en)) = true ->
        PyStr.endswith code "_generated" = true).
Proof.
  apply (proj2 (selected_locals_consistent Sample.es_en)). reflexivity.
Defined.

Lemma replace_suffix (base : string) :
  (forall c, In c (list_ascii_of_string base) -> c <> "_"%char) ->
  PyStr.replace (base ++ "_generated") "_generated" "" = base.
Proof.
  unfold PyStr.replace. intros H. induction base as [|a base IH].
  - reflexivity.
  - cbn [append PyStr.replace_from PyStr.startswith].
    destruct (Ascii.eqb "_" a) eqn:E.
    + apply Ascii.eqb_eq in E. elim (H a); [now left | now symmetry].
    + cbn [andb]. rewrite IH; [reflexivity|].
      intros c Hc. apply H. now right.
Qed.

(** X10: when a manual descriptor answers and its language code is some
    text without "_" followed by "_generated", the response reports that
    text alone: lines 128 to 131 remove the suffix. *)
Theorem manual_suffix_stripped
        {number : Type} (w : world number) (url video_id : string)
        (tl : list (Transcript.t number)) (d : Transcript.t number)
        (segs : list (Transcript.segment number)) (base : string) :
  serves w url video_id tl ->
  Spec.picks false tl d ->
  Spec.yields d segs ->
  Transcript.language_code d = base ++ "_generated" ->
  (forall c, In c (list_ascii_of_string base) -> c <> "_"%char) ->
  fst (get_transcript w url)
  = {| success := true;
       fail_reason := None;
       language := Some base;
       transcript := Some (PyStr.join " " (map Transcript.text segs)) |}.
Proof.
  intros Hs Hd Hy Ec Hb.
  rewrite (manual_response w url video_id tl d segs Hs Hd Hy). cbn [fst].
  rewrite Ec, endswith_append, (replace_suffix base Hb). reflexivity.
Qed.

Lemma manual_suffix_stripped_witness :
  fst (get_transcript (Sample.listing (Return Sample.suffixed)) Sample.url)
  = {| success := true;
       fail_reason := None;
       language := Some "fr";
       transcript := Some (PyStr.join " " (map Transcript.text Sample.hello)) |}.
Proof.
  apply (manual_suffix_stripped
           (Sample.listing (Return Sample.suffixed)) Sample.url "abc"
           Sample.suffixed (Sample.manual "fr_generated" (Return Sample.hello))
           Sample.hello "fr").
  - apply sample_serves.
  - exists [], []. split; [reflexivity|]. split; [reflexivity|].
    right. split; [|intros x []].
    intros x [<- | []] _. discriminate.
  - split; [reflexivity | discriminate].
  - reflexivity.
  - intros c Hc. cbn in Hc.
    repeat (destruct Hc as [<- | Hc]; [discriminate|]). destruct Hc.
Defined.

(** X11: the fail_reason tells the cause apart: it is "invalid_url"
    exactly when the resolver returns nothing or the empty identifier, and,
    for a non-empty identifier, "transcripts_disabled",
    "no_transcript_found_for_video" and "other: " followed by a message
    exactly when the listing raises the matching failure, and
    "no_transcript_available" exactly when the listing returns. *)
Theorem fail_reason_tells_cause {number : Type} (w : world number) (url : string) :
  (fail_reason (fst (get_transcript w url)) = Some "invalid_url" <->
   extract_video_id url = None \/ extract_video_id url = Some "")
  /\ forall video_id,
      extract_video_id url = Some video_id ->
      video_id <> "" ->
      (fail_reason (fst (get_transcript w url)) = Some "transcripts_disabled" <->
       exists msg,
         list_transcripts (YouTubeTranscriptApi w (proxy_config w)) video_id
         = Raise (TranscriptsDisabled msg))
      /\ (fail_reason (fst (get_transcript w url))
          = Some "no_transcript_found_for_video" <->
          exists msg,
            list_transcripts (YouTubeTranscriptApi w (proxy_config w)) video_id
            = Raise (NoTranscriptFound msg))
      /\ (forall msg,
             fail_reason (fst (get_transcript w url)) = Some ("other: " ++ msg) <->
             list_transcripts (YouTubeTranscriptApi w (proxy_config w)) video_id
             = Raise (OtherException msg))
      /\ (fail_reason (fst (get_transcript w url))
          = Some "no_transcript_available" <->
          exists tl,
            list_transcripts (YouTubeTranscriptApi w (proxy_config w)) video_id
            = Return tl
            /\ success (fst (get_transcript w url)) = false).
Proof.
  assert (Hserved : forall video_id tl,
             serves w url video_id tl ->
             (fail_reason (fst (get_transcript w url)) = None
              /\ success (fst (get_transcript w url)) = true)
             \/ (fail_reason (fst (get_transcript w url))
                 = Some "no_transcript_available"
                 /\ success (fst (get_transcript w url)) = false)).
  { intros video_id tl Hs.
    rewrite (get_transcript_serves w url video_id tl Hs). cbn [fst].
    destruct (select_cases tl)
      as [(d0 & s0 & _ & Hy0 & E)
         | [(tried & g & s0 & _ & Hy0 & _ & _ & E) | (st & tried & E & F & _)]];
      rewrite E; cbn [fst].
    - left. rewrite respond_manual by apply Hy0. now split.
    - left. rewrite respond_generated by apply Hy0. now split.
    - right. rewrite respond_falsy by exact F. now split. }
  split.
  - destruct (extract_video_id url) as [video_id|] eqn:Eid.
    + destruct (string_dec video_id "") as [-> | Nid].
      * unfold get_transcript. rewrite Eid. cbn. split; [now right | reflexivity].
      * split; [|intros [H | H]; congruence].
        intros H. exfalso.
        destruct (list_transcripts (YouTubeTranscriptApi w (proxy_config w)) video_id)
          as [tl|e] eqn:El.
        -- destruct (Hserved video_id tl (conj Eid (conj Nid El)))
             as [[E _] | [E _]]; rewrite E in H; discriminate.
        -- rewrite (get_transcript_raises w url video_id e Eid Nid El) in H.
           destruct e; discriminate.
    + unfold get_transcript. rewrite Eid. cbn. split; [now left | reflexivity].
  - intros video_id Eid Nid.
    destruct (list_transcripts (YouTubeTranscriptApi w (proxy_config w)) video_id)
      as [tl|e] eqn:El.
    + destruct (Hserved video_id tl (conj Eid (conj Nid El)))
        as [[E Es] | [E Es]]; rewrite E, Es;
        (split; [|split; [|split]]); try intros msg; split;
        try discriminate; try (intros (? & ?); discriminate);
        try reflexivity.
      * intros (tl' & _ & H). discriminate.
      * intros _. now exists tl.
    + rewrite (get_transcript_raises w url video_id e Eid Nid El).
      destruct e as [m|m|m]; cbn [fst handle failed fail_reason success str];
        (split; [|split; [|split]]); try intros msg; split;
        try discriminate; try (intros (? & ?); discriminate);
        try (intros (? & ? & ?); discriminate).
      * intros _. now exists m.
      * reflexivity.
      * intros _. now exists m.
      * reflexivity.
      * cbn [append]. intros H. now injection H as ->.
      * intros H. now injection H as ->.
Qed.

Lemma fail_reason_tells_cause_witness :
  (fail_reason (fst (get_transcript (Sample.listing (Raise Sample.boom)) Sample.url))
   = Some "transcripts_disabled" <->
   exists msg,
     list_transcripts
       (YouTubeTranscriptApi (Sample.listing (Raise Sample.boom))
                             (proxy_config (Sample.listing (Raise Sample.boom))))
       "abc"
     = Raise (TranscriptsDisabled msg))
  /\ (forall msg,
         fail_reason (fst (get_transcript (Sample.listing (Raise Sample.boom))
                                          Sample.url))
         = Some ("other: " ++ msg) <->
         list_transcripts
           (YouTubeTranscriptApi (Sample.listing (Raise Sample.boom))
                                 (proxy_config (Sample.listing (Raise Sample.boom))))
           "abc"
         = Raise (OtherException msg)).
Proof.
  destruct (proj2 (fail_reason_tells_cause (Sample.listing (Raise Sample.boom))
                                           Sample.url) "abc")
    as (H1 & _ & H3 & _).
  - reflexivity.
  - discriminate.
  - split; [exact H1 | exact H3].
Defined.

(** * The resolver and the endpoint together *)

Lemma extract_found (url id : string) :
  extract_video_id url = Some id ->
  exists pre s', url = pre ++ s' /\ id = Spec.span s'.
Proof.
  unfold extract_video_id, patterns. cbn [first_match]. intros H.
  repeat match type of H with
         | match Re.search ?r0 url with _ => _ end = _ =>
             destruct (Re.search r0 url) as [m|] eqn:?
         end;
    try discriminate;
    match goal with
    | E : Re.search _ url = Some _ |- _ =>
        destruct (search_capture _ _ _ E) as (pre & s' & -> & ->)
    end;
    cbn [Re.group1] in H; injection H as <-; now exists pre, s'.
Qed.

Lemma extract_clean (url id : string) :
  extract_video_id url = Some id ->
  forall c, In c (list_ascii_of_string id) -> ~ In c separators.
Proof.
  intros H c Hc Hs. destruct (extract_found url id H) as (pre & s' & _ & ->).
  apply span_clean in Hc. apply is_separator_spec in Hs. congruence.
Qed.

(** X12: the identifier of every listing request is the one the resolver
    extracted: a non-empty piece of the URL without "#", "&" and "?"; and
    the request is made with the client configured from the environment. *)
Theorem listing_identifier_clean {number : Type} (w : world number)
        (url : string) (cfg : option WebshareProxyConfig) (video_id : string) :
  In (ListTranscripts cfg video_id) (snd (get_transcript w url)) ->
  extract_video_id url = Some video_id
  /\ cfg = proxy_config w
  /\ video_id <> ""
  /\ (forall c, In c (list_ascii_of_string video_id) -> ~ In c separators)
  /\ exists pre post, url = pre ++ video_id ++ post.
Proof.
  intros Hin.
  assert (Hlog : snd (get_transcript w url) = []
                 \/ exists v fetched,
                     extract_video_id url = Some v /\ v <> ""
                     /\ snd (get_transcript w url) = session w v fetched).
  { destruct (extract_video_id url) as [v|] eqn:Eid;
      [|left; unfold get_transcript; now rewrite Eid].
    destruct (string_dec v "") as [-> | Nid];
      [left; unfold get_transcript; now rewrite Eid|].
    right. exists v.
    destruct (list_transcripts (YouTubeTranscriptApi w (proxy_config w)) v)
      as [tl|e] eqn:El.
    - rewrite (get_transcript_serves w url v tl (conj Eid (conj Nid El))).
      destruct (select_fetched tl) as (fetched & E & _). exists fetched.
      cbn [snd]. now rewrite E.
    - rewrite (get_transcript_raises w url v e Eid Nid El). now exists []. }
  destruct Hlog as [E | (v & fetched & Eid & Nid & E)]; rewrite E in Hin;
    [destruct Hin|].
  assert (cfg = proxy_config w /\ video_id = v) as [-> ->].
  { unfold session in Hin. apply in_app_or in Hin.
    destruct Hin as [Hin | [Hin | Hin]].
    - unfold configure in Hin. destruct (proxy_config w); [destruct Hin|].
      destruct Hin as [Hin | []]. discriminate.
    - now injection Hin as <- <-.
    - apply in_map_iff in Hin. destruct Hin as (x & Hx & _). discriminate. }
  split; [exact Eid|]. split; [reflexivity|]. split; [exact Nid|].
  split; [now apply (extract_clean url)|].
  destruct (extract_found url v Eid) as (pre & s' & -> & ->).
  exists pre, (Spec.rest s'). now rewrite <- span_rest.
Qed.

Lemma listing_identifier_clean_witness :
  extract_video_id "https://youtu.be/abc?t=1" = Some "abc"
  /\ None = proxy_config (Sample.listing (Return Sample.fr_en))
  /\ "abc" <> ""
  /\ (forall c, In c (list_ascii_of_string "abc") -> ~ In c separators)
  /\ exists pre post, "https://youtu.be/abc?t=1" = pre ++ "abc" ++ post.
Proof.
  apply (listing_identifier_clean (Sample.listing (Return Sample.fr_en))
                                  "https://youtu.be/abc?t=1" None "abc").
  right. now left.
Defined.

(** X13: an identifier that the resolver returns is a fixed point of the
    watch and youtu.be shapes: resolving the canonical URL built from it
    gives the same identifier again. *)
Theorem canonical_url_round_trip (url id : string) :
  extract_video_id url = Some id ->
  extract_video_id ("https://www.youtube.com/watch?v=" ++ id) = Some id
  /\ extract_video_id ("https://youtu.be/" ++ id) = Some id.
Proof.
  intros H. pose proof (extract_clean url id H) as Hid.
  assert (E : Spec.span id = id).
  { rewrite <- (append_empty_r id) at 1.
    apply span_identifier; [exact Hid | now left]. }
  unfold extract_video_id, patterns. cbn [first_match].
  split; scan_url; cbn [Re.group1]; now rewrite E.
Qed.

Lemma canonical_url_round_trip_witness :
  extract_video_id ("https://www.youtube.com/watch?v=" ++ "abc") = Some "abc"
  /\ extract_video_id ("https://youtu.be/" ++ "abc") = Some "abc".
Proof.
  apply (canonical_url_round_trip "https://www.youtube.com/embed/abc#top" "abc").
  reflexivity.
Defined.
